(** * Video tools over FFmpeg: segment planning and output naming

    A shallow embedding of [ffmpeg_tool.py]: the segment calculator
    ([VideoSegmentCalculatorTool.calculate_segments]), the splitter, the
    audio extractor, the timecode overlay and the duration probe, with the
    results about them.

    Numbers.  Python's [int] and [float] values are represented by their
    exact rational value ([Qc], canonical rationals, so that Python's [==]
    is Leibniz equality); floating-point rounding is outside the model.
    The [int]/[float] tag is kept where the code depends on it
    ([range(value)] accepts only an [int]).

    Strings are byte strings ([string]); [str.lower] is the ASCII one.

    Effects.  The tools read and change the file system, print, and start
    external processes; they are functions of a [world] that return the new
    one.  What an external process does is a parameter ([host]).  A loop
    whose termination the source does not make evident takes a number of
    passes it may use ([fuel]) and yields [None] when they do not suffice. *)

From Stdlib Require Import QArith Qcanon Qround Lia Ascii.
From stdpp Require Import base numbers list strings gmap pretty.

Set Default Proof Using "Type".

(** Loop counters are natural numbers read as Python integers. *)
Local Coercion Z.of_nat : nat >-> Z.

(** * Part I: the program *)

(** ** Python values and built-ins *)

Module Py.

(** A number as the schema [Or(int, float)] allows it. *)
Inductive number :=
| Int (z : Z)
| Float (q : Qc).

Definition num_val (v : number) : Qc :=
  match v with
  | Int z => Qc_of_Z z
  | Float q => q
  end.

(** Truthiness: [not x] holds of a number when it is zero, of a string
    when it is empty. *)
Definition truthy_Qc (x : Qc) : bool := bool_decide (x ≠ 0%Qc).
Definition truthy_num (v : number) : bool := truthy_Qc (num_val v).
Definition truthy_str (s : string) : bool :=
  match s with
  | EmptyString => false
  | String _ _ => true
  end.

(** [min(a, b)]: the first argument unless the second is strictly
    smaller. *)
Definition min (a b : Qc) : Qc := if decide (b < a)%Qc then b else a.

(** [range(n)] for an [int] [n]. *)
Definition range (n : Z) : list Z := Z.of_nat <$> seq 0 (Z.to_nat n).

Inductive exception :=
| TypeError (msg : string)
| AttributeError (msg : string)
| ValueError (msg : string)
| OSError (msg : string)
| CalledProcessError (returncode : Z) (cmd : list string).

(** What a call does: it returns a value or an exception leaves it. *)
Inductive outcome (A : Type) :=
| Returns (a : A)
| Raises (e : exception).
Global Arguments Returns {A} a.
Global Arguments Raises {A} e.

Global Instance exception_eq_dec : EqDecision exception.
Proof. solve_decision. Defined.
Global Instance outcome_eq_dec `{EqDecision A} : EqDecision (outcome A).
Proof. solve_decision. Defined.

(** *** Strings *)

Definition lower_char (a : ascii) : ascii :=
  let n := nat_of_ascii a in
  if (65 <=? n)%nat && (n <=? 90)%nat then ascii_of_nat (n + 32) else a.

(** [s.lower()] *)
Fixpoint lower (s : string) : string :=
  match s with
  | EmptyString => EmptyString
  | String a s' => String (lower_char a) (lower s')
  end.

(** [s.endswith(suffix)] and [s.startswith(prefix)] *)
Definition endswith (s suffix : string) : bool :=
  let n := String.length s in
  let m := String.length suffix in
  (m <=? n)%nat && String.eqb (String.substring (n - m) m s) suffix.

Definition startswith (s prefix : string) : bool := String.prefix prefix s.

(** [s.rfind(c)] for a one-character [c]: the last index of [c] in [s],
    [-1] when there is none.  [i] is the index of the head of [s]. *)
Fixpoint rfind_from (c : ascii) (s : string) (i : Z) : Z :=
  match s with
  | EmptyString => -1
  | String a s' =>
      let later := rfind_from c s' (i + 1) in
      if (0 <=? later)%Z then later
      else if Ascii.eqb a c then i else (-1)%Z
  end.
Definition rfind (c : ascii) (s : string) : Z := rfind_from c s 0.

(** The slices [s[:i]] and [s[i:]] for [0 <= i]. *)
Definition slice_to (s : string) (i : Z) : string :=
  String.substring 0 (Z.to_nat i) s.
Definition slice_from (s : string) (i : Z) : string :=
  String.substring (Z.to_nat i) (String.length s - Z.to_nat i) s.

(** [s.rstrip(c)] for a one-character [c]. *)
Fixpoint rstrip (c : ascii) (s : string) : string :=
  match s with
  | EmptyString => EmptyString
  | String a s' =>
      match rstrip c s' with
      | EmptyString =>
          if Ascii.eqb a c then EmptyString else String a EmptyString
      | rest => String a rest
      end
  end.

(** [c * n] *)
Fixpoint times (c : ascii) (n : nat) : string :=
  match n with
  | O => EmptyString
  | S n' => String c (times c n')
  end.

(** [sep.join(l)] *)
Fixpoint str_join (sep : string) (l : list string) : string :=
  match l with
  | [] => EmptyString
  | [s] => s
  | s :: rest => s +:+ sep +:+ str_join sep rest
  end.

(** The characters [str.strip] removes, among the bytes. *)
Definition isspace (a : ascii) : bool :=
  let n := nat_of_ascii a in
  ((9 <=? n)%nat && (n <=? 13)%nat) || ((28 <=? n)%nat && (n <=? 32)%nat).

Fixpoint lstrip (s : string) : string :=
  match s with
  | EmptyString => EmptyString
  | String a s' => if isspace a then lstrip s' else s
  end.

Definition strip (s : string) : string :=
  String.rev (lstrip (String.rev (lstrip s))).

(** [f'{i:02}']: the decimal digits of [i], filled with zeros on the left
    up to two characters. *)
Definition format_02 (i : nat) : string :=
  let digits := pretty i in
  times "0" (2 - String.length digits) +:+ digits.

(** The double quote, as a string. *)
Definition dquote : string := String "034"%char EmptyString.

End Py.
Import Py.

(** ** os.path on a POSIX host *)

Module PosixPath.

(** The scan of [genericpath._splitext] over the leading dots of the last
    component: whether one of the [count] characters from [filenameIndex]
    on is not a dot. *)
Fixpoint has_stem (p : string) (filenameIndex count : nat) : bool :=
  match count with
  | O => false
  | S count' =>
      match String.get filenameIndex p with
      | Some a =>
          if Ascii.eqb a "." then has_stem p (S filenameIndex) count'
          else true
      | None => true
      end
  end.

(** [os.path.splitext(p)]: the extension starts at the last dot of the
    last component, leading dots of that component apart. *)
Definition splitext (p : string) : string * string :=
  let sepIndex := rfind "/" p in
  let dotIndex := rfind "." p in
  if (sepIndex <? dotIndex)%Z
     && has_stem p (Z.to_nat (sepIndex + 1))
          (Z.to_nat (dotIndex - (sepIndex + 1)))
  then (slice_to p dotIndex, slice_from p dotIndex)
  else (p, EmptyString).

(** [os.path.split(p)] *)
Definition split (p : string) : string * string :=
  let i := (rfind "/" p + 1)%Z in
  let head := slice_to p i in
  let tail := slice_from p i in
  let head :=
    if truthy_str head
       && negb (String.eqb head (times "/" (String.length head)))
    then rstrip "/" head else head in
  (head, tail).

(** [os.path.join(a, b)] *)
Definition join (a b : string) : string :=
  if startswith b "/" then b
  else if negb (truthy_str a) || endswith a "/" then a +:+ b
  else a +:+ "/" +:+ b.

End PosixPath.
Import PosixPath.

(** ** Artifacts *)

(** A segment is the dict [{"start": start, "end": end}]. *)
Record segment := Segment { start : Qc; end_ : Qc }.

Global Instance segment_eq_dec : EqDecision segment.
Proof. solve_decision. Defined.

Inductive info :=
| Segments (segments : list segment)
| Duration (duration : Qc).

Inductive artifact :=
| ErrorArtifact (value : string)
| TextArtifact (value : string)
| InfoArtifact (value : info).

Global Instance info_eq_dec : EqDecision info.
Proof. solve_decision. Defined.
Global Instance artifact_eq_dec : EqDecision artifact.
Proof. solve_decision. Defined.

(** Closed equations between values that hold rationals are settled by
    running the decision procedure: two [Qc] with the same fraction carry
    different proofs of canonicity, which [reflexivity] alone would compare. *)
Ltac by_compute :=
  lazymatch goal with
  | |- ?P => apply (bool_decide_eq_true_1 P); vm_compute; reflexivity
  end.

(** ** VideoSegmentCalculatorTool *)

Section Planner.
Local Open Scope Qc_scope.

(** One pass of the body of the [for] loop of the "equal" method. *)
Definition equal_body (duration segment_duration : Qc)
    (segments : list segment) (i : Z) : list segment :=
  let start := Qc_of_Z i * segment_duration in
  let end_ := Py.min (start + segment_duration) duration in
  segments ++ [Segment start end_].

(** The [while start < duration] loop of the "duration" method; [None]
    when [fuel] passes are not enough to leave it. *)
Fixpoint while_loop (fuel : nat) (duration segment_duration start : Qc)
    (segments : list segment) : option (list segment) :=
  match fuel with
  | O => None
  | S fuel' =>
      if decide (start < duration) then
        let end_ := Py.min (start + segment_duration) duration in
        while_loop fuel' duration segment_duration
          (start + segment_duration) (segments ++ [Segment start end_])
      else Some segments
  end.

Definition missing_inputs : string :=
  "Missing required inputs: 'duration', 'method', or 'value'.".

Definition invalid_method (method : string) : string :=
  "Invalid method: " +:+ method +:+ ". Use 'equal' or 'duration'.".

Definition calculate_segments (fuel : nat) (duration : Qc) (method : string)
    (value : number) : option (outcome artifact) :=
  if negb (truthy_Qc duration) || negb (truthy_str method)
     || negb (truthy_num value)
  then Some (Returns (ErrorArtifact missing_inputs))
  else if decide (method = "equal") then
    let num_segments := value in
    let segment_duration := duration / num_val num_segments in
    match num_segments with
    | Int n =>
        let segments :=
          fold_left (equal_body duration segment_duration) (range n) [] in
        Some (Returns (InfoArtifact (Segments segments)))
    | Float _ =>
        Some (Raises
          (TypeError "'float' object cannot be interpreted as an integer"))
    end
  else if decide (method = "duration") then
    let segment_duration := num_val value in
    match while_loop fuel duration segment_duration 0 [] with
    | Some segments => Some (Returns (InfoArtifact (Segments segments)))
    | None => None
    end
  else Some (Returns (ErrorArtifact (invalid_method method))).

End Planner.

(** ** The world the tools run in *)

(** The paths that exist on disk, the commands started so far (oldest
    first) and the lines printed so far. *)
Record world := World {
  files : gset string;
  spawned : list (list string);
  printed : list string
}.

(** How a started process ends: with an exit status and what it wrote on
    its standard output, or not at all when the program cannot be started
    (Python then raises [FileNotFoundError], an [OSError]). *)
Inductive process :=
| Exited (returncode : Z) (stdout : string)
| NotStarted (msg : string).

(** What the tools take from their host: the external programs, which may
    change the files on disk, and the Python conversions between numbers,
    exceptions and text. *)
Record host := Host {
  run_process : list string → gset string → process * gset string;
  str_of_number : Qc → string;
  float_of_str : string → option Qc;
  str_of_exception : exception → string
}.

(** A computation on the world: it does not come back ([None], a loop out
    of fuel), or it returns or raises in a new world. *)
Definition prog (A : Type) : Type := world → option (outcome A * world).

Global Instance prog_ret : MRet prog := λ A a w, Some (Returns a, w).

Global Instance prog_bind : MBind prog := λ A B k m w,
  match m w with
  | None => None
  | Some (Returns a, w') => k a w'
  | Some (Raises e, w') => Some (Raises e, w')
  end.

Definition raise {A : Type} (e : exception) : prog A :=
  λ w, Some (Raises e, w).

Definition out_of_fuel {A : Type} : prog A := λ _, None.

(** [try: body / except <handles> as e: handler(e)] *)
Definition try_except {A : Type} (body : prog A) (handles : exception → bool)
    (handler : exception → prog A) : prog A :=
  λ w,
    match body w with
    | Some (Raises e, w') =>
        if handles e then handler e w' else Some (Raises e, w')
    | r => r
    end.

Definition is_CalledProcessError (e : exception) : bool :=
  match e with
  | CalledProcessError _ _ => true
  | _ => false
  end.

(** [except Exception] *)
Definition is_Exception (e : exception) : bool := true.

(** [os.path.exists(p)] *)
Definition path_exists (p : string) : prog bool :=
  λ w, Some (Returns (bool_decide (p ∈ files w)), w).

(** [os.remove(p)] of an existing file *)
Definition os_remove (p : string) : prog unit :=
  λ w, Some (Returns (),
             World (files w ∖ {[p]}) (spawned w) (printed w)).

Definition print (line : string) : prog unit :=
  λ w, Some (Returns (), World (files w) (spawned w) (printed w ++ [line])).

(** Completed process: [returncode] and [stdout]. *)
Record completed := Completed { returncode : Z; stdout : string }.

(** [subprocess.run(cmd, stdout=PIPE, stderr=PIPE, check=check)] *)
Definition subprocess_run (h : host) (check : bool) (cmd : list string)
    : prog completed :=
  λ w,
    let '(p, files') := run_process h cmd (files w) in
    let w' := World files' (spawned w ++ [cmd]) (printed w) in
    match p with
    | NotStarted msg => Some (Raises (OSError msg), w')
    | Exited rc out =>
        if check && negb (rc =? 0)%Z
        then Some (Raises (CalledProcessError rc cmd), w')
        else Some (Returns (Completed rc out), w')
    end.

(** The deletion every tool does before it writes [out]. *)
Definition delete_existing (out : string) : prog unit :=
  b ← path_exists out;
  if b : bool then
    _ ← print ("Deleting existing " +:+ dquote +:+ out +:+ dquote);
    os_remove out
  else mret ().

(** ** VideoInfoTool *)

Definition get_video_info (h : host) (mov : string) : prog artifact :=
  b ← path_exists mov;
  if negb b then mret (ErrorArtifact ("File not found: " +:+ mov))
  else
    let cmd :=
      [ "ffprobe"; "-v"; "error"; "-show_entries"; "format=duration";
        "-of"; "default=noprint_wrappers=1:nokey=1"; mov ] in
    try_except
      (result ← subprocess_run h false cmd;
       match float_of_str h (strip (stdout result)) with
       | Some duration => mret (InfoArtifact (Duration duration))
       | None =>
           raise (ValueError
             ("could not convert string to float: " +:+ stdout result))
       end)
      is_Exception
      (λ e, mret (ErrorArtifact
         ("Error retrieving video duration: " +:+ str_of_exception h e))).

(** ** VideoSplitterTool *)

Section Splitter.
Local Open Scope Qc_scope.

(** The suffix and the path of output number [i] out of [count]. *)
Definition split_sfx (ext : string) (count i : nat) : string :=
  if decide (1 < count)%nat then "_" +:+ format_02 i +:+ ext else ext.

Definition split_out (pth nam out_name ext : string) (count i : nat)
    : string :=
  join pth (nam +:+ "_" +:+ out_name +:+ split_sfx ext count i).

Definition split_cmd (h : host) (mov out : string) (segment : segment)
    : list string :=
  [ "ffmpeg"; "-ss"; str_of_number h (start segment);
    "-i"; mov; "-t"; str_of_number h (end_ segment - start segment);
    "-c:v"; "libx264"; "-avoid_negative_ts"; "1";
    out ].

(** [for i, segment in enumerate(segments, 1)], from number [i] on, with
    [count = len(segments)] of the whole list. *)
Fixpoint split_loop (h : host) (mov pth nam out_name ext : string)
    (count i : nat) (segments : list segment) (output_files : list string)
    : prog (list string) :=
  match segments with
  | [] => mret output_files
  | segment :: rest =>
      let out := split_out pth nam out_name ext count i in
      _ ← delete_existing out;
      _ ← subprocess_run h false (split_cmd h mov out segment);
      split_loop h mov pth nam out_name ext count (S i) rest
        (output_files ++ [out])
  end.

Definition split_video (h : host) (mov : string) (segments : list segment)
    (output_name : option string) : prog artifact :=
  let out_name := default "segment" output_name in
  b ← path_exists mov;
  if negb b then mret (ErrorArtifact ("Error: File not found: " +:+ mov))
  else if bool_decide (segments = []) then
    mret (ErrorArtifact "Error: No segments provided.")
  else
    let '(pth, ext) := splitext mov in
    let '(pth, nam) := split pth in
    output_files ←
      split_loop h mov pth nam out_name ext (length segments) 1 segments [];
    mret (TextArtifact
      ("Clips successfully created: " +:+ str_join ", " output_files)).

End Splitter.

(** ** AudioExtractorTool *)

(** The [while True] loop that takes ".mp3" off [out_name]; [out_name] is
    [None] when the request has no "output_name". *)
Fixpoint naming_cleanup (fuel : nat) (out_name : option string)
    : prog string :=
  match fuel with
  | O => out_of_fuel
  | S fuel' =>
      match out_name with
      | None =>
          raise (AttributeError
            "'NoneType' object has no attribute 'lower'")
      | Some out_name =>
          if endswith (lower out_name) ".mp3" then
            _ ← print ("Naming cleanup on: " +:+ out_name);
            let '(out_name, ext) := splitext out_name in
            naming_cleanup fuel' (Some out_name)
          else mret out_name
      end
  end.

Definition extract_audio (h : host) (fuel : nat) (mov : string)
    (output_name : option string) : prog artifact :=
  let out_name := output_name in
  b ← path_exists mov;
  if negb b then mret (ErrorArtifact ("Error: File not found: " +:+ mov))
  else
    let '(stb, ext) := splitext mov in
    let '(pth, nam) := split stb in
    out_name ← naming_cleanup fuel out_name;
    let out :=
      if negb (truthy_str out_name) then join pth (nam +:+ ".mp3")
      else join pth (out_name +:+ ".mp3") in
    _ ← delete_existing out;
    let cmd := [ "ffmpeg"; "-i"; mov; "-q:a"; "0"; "-map"; "a"; out ] in
    try_except
      (_ ← subprocess_run h true cmd;
       mret (TextArtifact ("Audio successfully extracted: " +:+ out)))
      is_CalledProcessError
      (λ e, mret (ErrorArtifact
         ("Error extracting audio: " +:+ str_of_exception h e))).

(** ** VideoTimecodeOverlayTool *)

Definition timecode_filter : string :=
  "drawtext=text='%{pts\:hms}'" +:+ ":" +:+ "fontsize='48*(w/1920)'"
  +:+ ":" +:+ "fontcolor=white"
  +:+ ":" +:+ "x=(w-text_w-text_h*2):y=(h-text_h-text_h*2)".

Definition add_timecode_overlay (h : host) (mov : string)
    (output_name : option string) : prog artifact :=
  let out_name := default "_timecoded" output_name in
  b ← path_exists mov;
  if negb b then mret (ErrorArtifact ("Error: File not found: " +:+ mov))
  else
    let '(pth, ext) := splitext mov in
    let '(pth, nam) := split pth in
    let out := join pth (nam +:+ out_name +:+ ext) in
    _ ← delete_existing out;
    let cmd := [ "ffmpeg"; "-i"; mov; "-vf"; timecode_filter; out ] in
    try_except
      (_ ← subprocess_run h true cmd;
       mret (TextArtifact ("Timecode overlay added: " +:+ out)))
      is_CalledProcessError
      (λ e, mret (ErrorArtifact
         ("Error adding timecode overlay: " +:+ str_of_exception h e))).

(** * Part II: notions the results are stated with *)

Section Notions.
Local Open Scope Qc_scope.

(** The least integer that is not below [x]. *)
Definition ceil (x : Qc) : Z := Qceiling x.

(** Segment number [j] of a plan with segments of length [len]. *)
Definition plan_segment (duration len : Qc) (j : nat) : segment :=
  Segment (Qc_of_Z j * len) (Py.min (Qc_of_Z j * len + len) duration).

Definition plan_shape (duration len : Qc) (N : nat) : list segment :=
  plan_segment duration len <$> seq 0 N.

(** [N] segments of length [len] are what it takes to reach [duration]:
    every one of them starts before [duration], and the next one would
    not. *)
Record reaches (duration len : Qc) (N : nat) : Prop := {
  reaches_len : 0 < len;
  reaches_before : ∀ j : nat, (j < N)%nat → Qc_of_Z j * len < duration;
  reaches_after : duration ≤ Qc_of_Z N * len
}.

(** [chained a segments b]: the segments are non-empty intervals, the
    first starts at [a], each ends where the next starts, and the last
    ends at [b]. *)
Fixpoint chained (a : Qc) (segments : list segment) (b : Qc) : Prop :=
  match segments with
  | [] => a = b
  | s :: rest => start s = a ∧ start s < end_ s ∧ chained (end_ s) rest b
  end.

(** The instant [t] lies in segment number [i] and in no other one. *)
Definition in_exactly_one (segments : list segment) (t : Qc) : Prop :=
  ∃ (i : nat) (s : segment),
    segments !! i = Some s ∧ start s ≤ t ∧ t < end_ s ∧
    ∀ (i' : nat) (s' : segment),
      segments !! i' = Some s' → start s' ≤ t → t < end_ s' → i' = i.

(** The requests the planner is meant for, and the number of segments
    they call for. *)
Definition valid_request (method : string) (value : number) : Prop :=
  (method = "equal" ∧ ∃ count : Z, value = Int count ∧ (1 ≤ count)%Z) ∨
  (method = "duration" ∧ 0 < num_val value).

Definition segment_count (duration : Qc) (method : string) (value : number)
    : nat :=
  if decide (method = "equal") then
    match value with
    | Int count => Z.to_nat count
    | Float _ => 0%nat
    end
  else Z.to_nat (ceil (duration / num_val value)).

(** The paths the commands started so far were told to write: the last
    argument of each. *)
Definition written (w : world) : list string :=
  omap (λ cmd : list string, last cmd) (spawned w).

(** The character of the decimal digit [d]. *)
Definition digit (d : nat) : ascii := ascii_of_nat (48 + d).

(** Every external program starts and exits, with whatever status. *)
Definition programs_run (h : host) : Prop :=
  ∀ (cmd : list string) (fs : gset string),
    ∃ (rc : Z) (out : string) (fs' : gset string),
      run_process h cmd fs = (Exited rc out, fs').

(** Every external program starts and exits with a status other than
    zero. *)
Definition programs_fail (h : host) : Prop :=
  ∀ (cmd : list string) (fs : gset string),
    ∃ (rc : Z) (out : string) (fs' : gset string),
      run_process h cmd fs = (Exited rc out, fs') ∧ rc ≠ 0%Z.

End Notions.

(** A host for the examples: every external program exits with [status]
    and leaves the disk alone. *)
Definition exits_with (status : Z) : host := {|
  run_process := λ _ fs, (Exited status EmptyString, fs);
  str_of_number := λ q, pretty (Qnum q) +:+ "/" +:+ pretty (Z.pos (Qden q));
  float_of_str := λ _, None;
  str_of_exception := λ _, "error"
|}.

Definition disk_with (paths : list string) : world :=
  World (list_to_set paths) [] [].

(** ** Further notions: what the tools start and leave behind *)

(** The world after the deletion of [out]: a line is printed and the path
    taken off the disk when it was there, nothing changes otherwise. *)
Definition after_delete (out : string) (w : world) : world :=
  if bool_decide (out ∈ files w) then
    World (files w ∖ {[out]}) (spawned w)
      (printed w ++ ["Deleting existing " +:+ dquote +:+ out +:+ dquote])
  else w.

(** The world after [cmd] has been started and has left the files [fs']. *)
Definition after_run (cmd : list string) (fs' : gset string) (w : world)
    : world :=
  World fs' (spawned w ++ [cmd]) (printed w).

(** The command of the probe. *)
Definition ffprobe_cmd (mov : string) : list string :=
  [ "ffprobe"; "-v"; "error"; "-show_entries"; "format=duration";
    "-of"; "default=noprint_wrappers=1:nokey=1"; mov ].

(** The destination and the command of the audio extractor, for the name
    the cleanup loop has left. *)
Definition audio_out (mov out_name : string) : string :=
  let pth := (split (splitext mov).1).1 in
  let nam := (split (splitext mov).1).2 in
  if negb (truthy_str out_name) then join pth (nam +:+ ".mp3")
  else join pth (out_name +:+ ".mp3").

Definition audio_cmd (mov out : string) : list string :=
  [ "ffmpeg"; "-i"; mov; "-q:a"; "0"; "-map"; "a"; out ].

(** The destination and the command of the timecode overlay. *)
Definition overlay_out (mov : string) (output_name : option string)
    : string :=
  let ext := (splitext mov).2 in
  let pth := (split (splitext mov).1).1 in
  let nam := (split (splitext mov).1).2 in
  join pth (nam +:+ default "_timecoded" output_name +:+ ext).

Definition overlay_cmd (mov out : string) : list string :=
  [ "ffmpeg"; "-i"; mov; "-vf"; timecode_filter; out ].

(** What a tool that checks the exit status answers: the success text on
    status zero, the error text with the exception otherwise. *)
Definition checked_answer (h : host) (rc : Z) (cmd : list string)
    (success failure : string) : artifact :=
  if (rc =? 0)%Z then TextArtifact success
  else ErrorArtifact
    (failure +:+ str_of_exception h (CalledProcessError rc cmd)).

(** No external program can be started. *)
Definition programs_missing (h : host) : Prop :=
  ∀ (cmd : list string) (fs : gset string),
    ∃ (msg : string) (fs' : gset string),
      run_process h cmd fs = (NotStarted msg, fs').

(** What one pass of the cleanup loop leaves of a name. *)
Definition strip_ext (name : string) : string := (splitext name).1.

(** A name the cleanup loop cannot get past: it ends with ".mp3" and
    [splitext] takes nothing off it. *)
Definition stuck (name : string) : Prop :=
  endswith (lower name) ".mp3" = true ∧ (splitext name).1 = name.

(** Hosts for the examples: one whose programs write [out] and exit with
    status zero, [out] being read as the number [d]; one without
    programs. *)
Definition reports (out : string) (d : Qc) : host := {|
  run_process := λ _ fs, (Exited 0 out, fs);
  str_of_number := λ q, pretty (Qnum q) +:+ "/" +:+ pretty (Z.pos (Qden q));
  float_of_str := λ s, if decide (s = strip out) then Some d else None;
  str_of_exception := λ _, "error"
|}.

Definition no_programs : host := {|
  run_process := λ _ fs, (NotStarted "No such file or directory", fs);
  str_of_number := λ q, pretty (Qnum q) +:+ "/" +:+ pretty (Z.pos (Qden q));
  float_of_str := λ _, None;
  str_of_exception := λ _, "error"
|}.

(** * Part III: results *)

(** ** The scenarios of the planner *)

Example scenario_1 :
  calculate_segments 0 (Qc_of_Z 10) "equal" (Int 2)
  = Some (Returns (InfoArtifact (Segments
      [Segment 0 (Qc_of_Z 5); Segment (Qc_of_Z 5) (Qc_of_Z 10)]))).
Proof. by_compute. Qed.

Example scenario_2 :
  calculate_segments 4 (Qc_of_Z 10) "duration" (Float (Qc_of_Z 4))
  = Some (Returns (InfoArtifact (Segments
      [Segment 0 (Qc_of_Z 4); Segment (Qc_of_Z 4) (Qc_of_Z 8);
       Segment (Qc_of_Z 8) (Qc_of_Z 10)]))).
Proof. by_compute. Qed.

Example scenario_3 :
  calculate_segments 2 (Qc_of_Z 7) "duration" (Float (Qc_of_Z 7))
  = Some (Returns (InfoArtifact (Segments [Segment 0 (Qc_of_Z 7)]))).
Proof. by_compute. Qed.

(** ** Arithmetic of segment boundaries *)

Section Boundaries.
Local Open Scope Qc_scope.

Lemma Qc_of_nat_S (j : nat) : Qc_of_Z (S j) = Qc_of_Z j + 1.
Proof. by rewrite Nat2Z.inj_succ, <-Z.add_1_r, Z2Qc_inj_add, Z2Qc_inj_1. Qed.

Lemma Qc_of_nat_le (i j : nat) : (i ≤ j)%nat → Qc_of_Z i ≤ Qc_of_Z j.
Proof. intros Hij. apply (proj1 (Z2Qc_inj_le i j)). lia. Qed.

Lemma min_first (a b : Qc) : a ≤ b → Py.min a b = a.
Proof.
  intros Hab. unfold Py.min. destruct (decide (b < a)) as [Hlt|]; [|done].
  by apply Qcle_not_lt in Hab.
Qed.

Lemma min_second (a b : Qc) : b ≤ a → Py.min a b = b.
Proof.
  intros Hba. unfold Py.min. destruct (decide (b < a)) as [|Hn]; [done|].
  apply Qcnot_lt_le in Hn. by apply Qcle_antisym.
Qed.

Lemma min_le_second (a b : Qc) : Py.min a b ≤ b.
Proof.
  unfold Py.min. destruct (decide (b < a)) as [|Hn].
  - apply Qcle_refl.
  - by apply Qcnot_lt_le.
Qed.

Lemma step_boundary (j : nat) (len : Qc) :
  Qc_of_Z j * len + len = Qc_of_Z (S j) * len.
Proof. rewrite Qc_of_nat_S. ring. Qed.

Lemma boundary_0 (len : Qc) : Qc_of_Z 0%nat * len = 0.
Proof. change (Z.of_nat 0) with 0%Z. rewrite Z2Qc_inj_0. ring. Qed.

Lemma boundary_mono (i j : nat) (len : Qc) :
  0 < len → (i ≤ j)%nat → Qc_of_Z i * len ≤ Qc_of_Z j * len.
Proof.
  intros Hlen Hij. apply Qcmult_le_mono_nonneg_r.
  - by apply Qclt_le_weak.
  - by apply Qc_of_nat_le.
Qed.

Lemma boundary_lt_next (j : nat) (len : Qc) :
  0 < len → Qc_of_Z j * len < Qc_of_Z (S j) * len.
Proof.
  intros Hlen. rewrite <-step_boundary.
  rewrite <-(Qcplus_0_r (Qc_of_Z j * len)) at 1.
  by apply Qcplus_lt_mono_l.
Qed.

End Boundaries.

(** ** The shape of a plan *)

Section Shape.
Local Open Scope Qc_scope.

Lemma plan_shape_length duration len N :
  length (plan_shape duration len N) = N.
Proof. unfold plan_shape. by rewrite length_fmap, length_seq. Qed.

Lemma plan_shape_lookup duration len N (i : nat) :
  (i < N)%nat →
  plan_shape duration len N !! i = Some (plan_segment duration len i).
Proof.
  intros Hi. unfold plan_shape.
  by rewrite list_lookup_fmap, lookup_seq_lt.
Qed.

Lemma plan_shape_lookup_inv duration len N (i : nat) s :
  plan_shape duration len N !! i = Some s →
  (i < N)%nat ∧ s = plan_segment duration len i.
Proof.
  intros Hs. assert (i < N)%nat as Hi.
  { apply lookup_lt_Some in Hs. by rewrite plan_shape_length in Hs. }
  rewrite plan_shape_lookup in Hs by done. by simplify_eq.
Qed.

Lemma plan_shape_last duration len N :
  last (plan_shape duration len (S N)) = Some (plan_segment duration len N).
Proof.
  unfold plan_shape. rewrite seq_S, fmap_app. simpl. by rewrite last_snoc.
Qed.

Section Reaching.
Context {duration len : Qc} {N : nat} (Hreach : reaches duration len N).

Lemma inner_end (j : nat) :
  (S j < N)%nat →
  end_ (plan_segment duration len j) = Qc_of_Z (S j) * len.
Proof using Hreach.
  intros Hj. simpl. rewrite step_boundary. apply min_first.
  apply Qclt_le_weak. by apply (reaches_before _ _ _ Hreach).
Qed.

Lemma final_end (j : nat) :
  N = S j → end_ (plan_segment duration len j) = duration.
Proof using Hreach.
  intros ->. simpl. rewrite step_boundary. apply min_second.
  apply (reaches_after _ _ _ Hreach).
Qed.

Lemma segment_nonempty (j : nat) :
  (j < N)%nat →
  start (plan_segment duration len j) < end_ (plan_segment duration len j).
Proof using Hreach.
  intros Hj. destruct (decide (S j < N)%nat) as [Hin|Hlast].
  - rewrite inner_end by done. simpl.
    apply boundary_lt_next, (reaches_len _ _ _ Hreach).
  - rewrite (final_end j) by lia. simpl.
    by apply (reaches_before _ _ _ Hreach).
Qed.
End Reaching.

End Shape.

Section Coverage.
Local Open Scope Qc_scope.

Lemma plan_chained (duration len : Qc) (m k : nat) :
  0 < len →
  (∀ j : nat, (k ≤ j < k + S m)%nat → Qc_of_Z j * len < duration) →
  duration ≤ Qc_of_Z (k + S m)%nat * len →
  chained (Qc_of_Z k * len) (plan_segment duration len <$> seq k (S m))
    duration.
Proof.
  intros Hlen. revert k. induction m as [|m IH]; intros k Hbefore Hafter.
  - replace (k + 1)%nat with (S k) in Hafter by lia.
    cbn [seq fmap list_fmap chained plan_segment start end_].
    rewrite step_boundary, (min_second _ _ Hafter).
    split_and!; [done| apply Hbefore; lia |done].
  - assert (Qc_of_Z (S k) * len < duration) as Hnext by (apply Hbefore; lia).
    change (seq k (S (S m))) with (k :: seq (S k) (S m)).
    cbn [fmap list_fmap chained].
    assert (end_ (plan_segment duration len k) = Qc_of_Z (S k) * len) as ->.
    { simpl. rewrite step_boundary. by apply min_first, Qclt_le_weak. }
    split_and!; [done| by apply boundary_lt_next |].
    apply IH.
    + intros j Hj. apply Hbefore. lia.
    + by replace (S k + S m)%nat with (k + S (S m))%nat by lia.
Qed.

Lemma chained_starts (a b : Qc) (segments : list segment) :
  chained a segments b →
  ∀ (i : nat) (s : segment), segments !! i = Some s → a ≤ start s.
Proof.
  revert a. induction segments as [|s0 rest IH]; intros a Hch i s Hs.
  - done.
  - destruct Hch as (Ha & Hlt & Hrest). destruct i as [|i]; simplify_eq/=.
    + apply Qcle_refl.
    + apply Qcle_trans with (end_ s0); [by apply Qclt_le_weak|].
      by eapply IH.
Qed.

Lemma chained_covers (a b t : Qc) (segments : list segment) :
  chained a segments b → a ≤ t → t < b → in_exactly_one segments t.
Proof.
  revert a. induction segments as [|s0 rest IH]; intros a Hch Hat Htb.
  - simpl in Hch. subst. by apply Qcle_not_lt in Hat.
  - destruct Hch as (Ha & Hlt & Hrest).
    destruct (decide (t < end_ s0)) as [Hin|Hout].
    + exists 0%nat, s0. split_and!; [done|by rewrite Ha|done|].
      intros [|i'] s' Hs' Hs't Hts'; [done|]. simpl in Hs'.
      pose proof (chained_starts _ _ _ Hrest _ _ Hs') as Hle.
      exfalso. apply (Qclt_not_le _ _ Hin).
      by apply Qcle_trans with (start s').
    + apply Qcnot_lt_le in Hout.
      destruct (IH _ Hrest Hout Htb) as (i & s & Hs & Hst & Hts & Huniq).
      exists (S i), s. split_and!; [done..|].
      intros [|i'] s' Hs' Hs't Hts'; simplify_eq/=.
      * by apply Qcle_not_lt in Hout.
      * f_equal. by eapply Huniq.
Qed.

Lemma plan_shape_chained (duration len : Qc) (N : nat) :
  0 < duration → reaches duration len N →
  chained 0 (plan_shape duration len N) duration.
Proof.
  intros Hd [Hlen Hbefore Hafter]. destruct N as [|m].
  - exfalso. apply (Qclt_not_le _ _ Hd).
    by rewrite boundary_0 in Hafter.
  - rewrite <-(boundary_0 len) at 1.
    apply plan_chained; [done| |done].
    intros j Hj. apply Hbefore. lia.
Qed.

End Coverage.

(** ** What the two loops compute *)

Section Loops.
Local Open Scope Qc_scope.

Lemma equal_loop (duration len : Qc) (l : list Z) (acc : list segment) :
  fold_left (equal_body duration len) l acc
  = acc ++ ((λ i : Z,
      Segment (Qc_of_Z i * len) (Py.min (Qc_of_Z i * len + len) duration))
      <$> l).
Proof.
  revert acc. induction l as [|i l IH]; intros acc; simpl.
  - by rewrite app_nil_r.
  - rewrite IH. unfold equal_body. by rewrite <-app_assoc.
Qed.

Lemma equal_loop_shape (duration len : Qc) (n : Z) :
  fold_left (equal_body duration len) (range n) []
  = plan_shape duration len (Z.to_nat n).
Proof.
  rewrite equal_loop. unfold range, plan_shape. simpl.
  by rewrite <-list_fmap_compose.
Qed.

(** [m] more segments are due from segment [k] on: [m] passes and the
    failing test leave the loop. *)
Lemma while_loop_run (duration len : Qc) (m k fuel : nat)
    (acc : list segment) :
  (m < fuel)%nat →
  (∀ j : nat, (k ≤ j < k + m)%nat → Qc_of_Z j * len < duration) →
  duration ≤ Qc_of_Z (k + m)%nat * len →
  while_loop fuel duration len (Qc_of_Z k * len) acc
  = Some (acc ++ (plan_segment duration len <$> seq k m)).
Proof.
  revert k fuel acc.
  induction m as [|m IH]; intros k fuel acc Hfuel Hbefore Hafter;
    (destruct fuel as [|fuel]; [lia|]); simpl.
  - rewrite Nat.add_0_r in Hafter.
    rewrite decide_False by (by apply Qcle_not_lt).
    by rewrite app_nil_r.
  - rewrite decide_True by (apply Hbefore; lia).
    rewrite step_boundary, IH.
    + rewrite <-app_assoc. simpl. unfold plan_segment at 2.
      by rewrite step_boundary.
    + lia.
    + intros j Hj. apply Hbefore. lia.
    + by replace (S k + m)%nat with (k + S m)%nat by lia.
Qed.

Lemma while_loop_shape (duration len : Qc) (N fuel : nat) :
  (N < fuel)%nat → reaches duration len N →
  while_loop fuel duration len 0 [] = Some (plan_shape duration len N).
Proof.
  intros Hfuel [Hlen Hbefore Hafter].
  rewrite <-(boundary_0 len) at 1.
  rewrite (while_loop_run duration len N 0 fuel); [done|done| |done].
  intros j Hj. apply Hbefore. lia.
Qed.

(** A step that does not advance never reaches a later [duration]. *)
Lemma while_loop_stuck (duration len : Qc) (fuel : nat) (start : Qc)
    (acc : list segment) :
  len ≤ 0 → start < duration →
  while_loop fuel duration len start acc = None.
Proof.
  intros Hlen. revert start acc.
  induction fuel as [|fuel IH]; intros start acc Hstart; simpl; [done|].
  rewrite decide_True by done. apply IH.
  apply Qcle_lt_trans with start; [|done].
  rewrite <-(Qcplus_0_r start) at 2. by apply Qcplus_le_mono_l.
Qed.

End Loops.

(** ** How many segments reach the duration *)

Section Counting.
Local Open Scope Qc_scope.

Lemma Qc_of_Z_pos (n : Z) : (1 ≤ n)%Z → 0 < Qc_of_Z n.
Proof. intros Hn. rewrite <-Z2Qc_inj_0. apply (proj1 (Z2Qc_inj_lt 0 n)). lia. Qed.

Lemma Qcdiv_pos (x y : Qc) : 0 < x → 0 < y → 0 < x / y.
Proof. intros Hx Hy. unfold Qcdiv. by apply Qcmult_pos_pos, Qcinv_pos. Qed.

Lemma Qcdiv_mult_cancel (x y : Qc) : y ≠ 0 → x / y * y = x.
Proof. intros Hy. field. done. Qed.

Lemma ceil_above (x : Qc) : x ≤ Qc_of_Z (ceil x).
Proof. exact (Qle_ceiling x). Qed.

Lemma ceil_below (x : Qc) : Qc_of_Z (ceil x - 1) < x.
Proof. exact (Qceiling_lt x). Qed.

Lemma reaches_equal (duration : Qc) (n : Z) :
  0 < duration → (1 ≤ n)%Z →
  reaches duration (duration / Qc_of_Z n) (Z.to_nat n).
Proof.
  intros Hd Hn. pose proof (Qc_of_Z_pos n Hn) as Hpos.
  assert (Qc_of_Z n ≠ 0) as Hne by (by apply not_eq_sym, Qclt_not_eq).
  assert (Qc_of_Z n * (duration / Qc_of_Z n) = duration) as Hall.
  { rewrite Qcmult_comm. by apply Qcdiv_mult_cancel. }
  split.
  - by apply Qcdiv_pos.
  - intros j Hj. rewrite <-Hall at 2.
    apply Qcmult_lt_mono_pos_r; [by apply Qcdiv_pos|].
    apply (proj1 (Z2Qc_inj_lt j n)). lia.
  - rewrite Z2Nat.id by lia. rewrite Hall. apply Qcle_refl.
Qed.

Lemma reaches_fixed (duration len : Qc) :
  0 < duration → 0 < len →
  reaches duration len (Z.to_nat (ceil (duration / len))).
Proof.
  intros Hd Hlen.
  assert (len ≠ 0) as Hne by (by apply not_eq_sym, Qclt_not_eq).
  pose proof (ceil_above (duration / len)) as Hup.
  pose proof (ceil_below (duration / len)) as Hdown.
  set (c := ceil (duration / len)) in *.
  assert (0 < c)%Z as Hc.
  { apply (proj2 (Z2Qc_inj_lt 0 c)). rewrite Z2Qc_inj_0.
    apply Qclt_le_trans with (duration / len); [by apply Qcdiv_pos|done]. }
  split.
  - done.
  - intros j Hj. rewrite <-(Qcdiv_mult_cancel duration len) at 1 by done.
    apply Qcmult_lt_mono_pos_r; [done|].
    apply Qcle_lt_trans with (Qc_of_Z (c - 1)); [|done].
    apply (proj1 (Z2Qc_inj_le j (c - 1))). lia.
  - rewrite Z2Nat.id by lia.
    rewrite <-(Qcdiv_mult_cancel duration len) at 1 by done.
    by apply Qcmult_le_mono_nonneg_r; [apply Qclt_le_weak|].
Qed.

End Counting.

(** ** Plans that reach the duration *)

Section Plans.
Local Open Scope Qc_scope.

Lemma Qc_sub_pos (a b : Qc) : a < b → 0 < b - a.
Proof.
  intros Hab. apply (Qcplus_lt_mono_r _ _ a).
  by replace (b - a + a) with b by ring; rewrite Qcplus_0_l.
Qed.

Lemma Qc_sub_le (a b c : Qc) : b ≤ a + c → b - a ≤ c.
Proof.
  intros Hb. apply (Qcplus_le_mono_r _ _ a).
  by replace (b - a + a) with b by ring; rewrite (Qcplus_comm c a).
Qed.

Context {duration len : Qc} {N : nat} (Hreach : reaches duration len N).

Lemma reaches_nonzero : 0 < duration → N ≠ 0%nat.
Proof using Hreach.
  intros Hd ->. apply (Qclt_not_le _ _ Hd).
  rewrite <-(boundary_0 len). apply (reaches_after _ _ _ Hreach).
Qed.

Lemma consecutive (i : nat) (s t : segment) :
  plan_shape duration len N !! i = Some s →
  plan_shape duration len N !! S i = Some t →
  end_ s = start t ∧ start s < start t ∧ end_ s < end_ t.
Proof using Hreach.
  intros [_ ->]%plan_shape_lookup_inv [Hi ->]%plan_shape_lookup_inv.
  pose proof (segment_nonempty Hreach (S i) Hi) as Hnext.
  rewrite (inner_end Hreach) by done.
  change (start (plan_segment duration len (S i))) with (Qc_of_Z (S i) * len)
    in *.
  split_and!; [done| |done].
  apply boundary_lt_next, (reaches_len _ _ _ Hreach).
Qed.

Lemma last_segment :
  0 < duration →
  ∃ s : segment,
    last (plan_shape duration len N) = Some s ∧ end_ s = duration ∧
    s = plan_segment duration len (N - 1).
Proof using Hreach.
  intros Hd. pose proof (reaches_nonzero Hd) as HN.
  destruct N as [|m]; [done|]. exists (plan_segment duration len m).
  rewrite plan_shape_last. replace (S m - 1)%nat with m by lia.
  by rewrite (final_end Hreach m).
Qed.

Lemma inner_length (i : nat) :
  (S i < N)%nat →
  end_ (plan_segment duration len i) - start (plan_segment duration len i)
  = len.
Proof using Hreach.
  intros Hi. rewrite (inner_end Hreach) by done. simpl.
  rewrite Qc_of_nat_S. ring.
Qed.

Lemma final_length (j : nat) :
  N = S j →
  let s := plan_segment duration len j in
  end_ s - start s = duration - Qc_of_Z j * len ∧
  0 < end_ s - start s ∧ end_ s - start s ≤ len.
Proof using Hreach.
  intros HN s. unfold s. rewrite (final_end Hreach j HN).
  change (start (plan_segment duration len j)) with (Qc_of_Z j * len).
  split_and!; [done| |].
  - apply Qc_sub_pos, (reaches_before _ _ _ Hreach). lia.
  - apply Qc_sub_le. rewrite step_boundary, <-HN.
    apply (reaches_after _ _ _ Hreach).
Qed.

Lemma single_segment :
  0 < duration → duration ≤ len →
  plan_shape duration len N = [Segment 0 duration].
Proof using Hreach.
  intros Hd Hle. pose proof (reaches_nonzero Hd) as HN.
  assert (N = 1%nat) as HN1.
  { destruct (decide (1 < N)%nat) as [Hmore|]; [|lia].
    pose proof (reaches_before _ _ _ Hreach 1%nat Hmore) as Hlt.
    change (Z.of_nat 1) with 1%Z in Hlt.
    rewrite Z2Qc_inj_1, Qcmult_1_l in Hlt.
    by apply Qcle_not_lt in Hle. }
  pose proof (final_end Hreach 0 HN1) as Hend. rewrite HN1.
  unfold plan_shape. simpl. f_equal.
  destruct (plan_segment duration len 0) as [a b] eqn:Hs.
  simpl in Hend. subst b. f_equal.
  injection Hs as <- _. apply boundary_0.
Qed.

Lemma shape_partitions :
  0 < duration →
  let segments := plan_shape duration len N in
  (∃ s, head segments = Some s ∧ start s = 0) ∧
  (∀ (i : nat) (s t : segment),
     segments !! i = Some s → segments !! S i = Some t →
     end_ s = start t) ∧
  (∃ s, last segments = Some s ∧ end_ s = duration) ∧
  (∀ (i : nat) (s : segment), segments !! i = Some s → start s < end_ s) ∧
  (∀ t : Qc, 0 ≤ t → t < duration → in_exactly_one segments t).
Proof using Hreach.
  intros Hd segments. split_and!.
  - pose proof (reaches_nonzero Hd) as HN. unfold segments, plan_shape.
    destruct N as [|m]; [done|]. eexists. split; [done|]. apply boundary_0.
  - intros i s t Hs Ht. by destruct (consecutive i s t Hs Ht).
  - destruct (last_segment Hd) as (s & Hs & Hend & _). by exists s.
  - intros i s [Hi ->]%plan_shape_lookup_inv.
    by apply (segment_nonempty Hreach).
  - intros t. apply chained_covers. by apply plan_shape_chained.
Qed.

End Plans.

(** ** The segment calculator *)

Section Calculator.
Local Open Scope Qc_scope.

Lemma truthy_Qc_true (x : Qc) : x ≠ 0 → truthy_Qc x = true.
Proof. intros. by apply bool_decide_eq_true_2. Qed.

Lemma truthy_Qc_false (x : Qc) : x = 0 → truthy_Qc x = false.
Proof. intros ->. apply bool_decide_eq_false_2. by intros []. Qed.

Lemma nonzero_of_pos (x : Qc) : 0 < x → x ≠ 0.
Proof. intros Hx. by apply not_eq_sym, Qclt_not_eq. Qed.

Lemma nonzero_of_neg (x : Qc) : x < 0 → x ≠ 0.
Proof. intros Hx. by apply Qclt_not_eq. Qed.

(** The "equal" method on an [int]: the guard passes on non-zero inputs
    and the [for] loop yields the shape. *)
Lemma calculate_equal (fuel : nat) (duration : Qc) (count : Z) :
  duration ≠ 0 → count ≠ 0%Z →
  calculate_segments fuel duration "equal" (Int count)
  = Some (Returns (InfoArtifact (Segments
      (plan_shape duration (duration / Qc_of_Z count) (Z.to_nat count))))).
Proof.
  intros Hd Hc. unfold calculate_segments, truthy_num.
  rewrite (truthy_Qc_true duration Hd). simpl num_val.
  rewrite truthy_Qc_true.
  - simpl. by rewrite equal_loop_shape.
  - rewrite <-Z2Qc_inj_0. by intros ?%Z2Qc_inj.
Qed.

(** The "duration" method: the guard passes on non-zero inputs and the
    result is the one of the [while] loop. *)
Lemma calculate_fixed (fuel : nat) (duration : Qc) (value : number) :
  duration ≠ 0 → num_val value ≠ 0 →
  calculate_segments fuel duration "duration" value
  = (λ segments, Returns (InfoArtifact (Segments segments)))
      <$> while_loop fuel duration (num_val value) 0 [].
Proof.
  intros Hd Hv. unfold calculate_segments, truthy_num.
  rewrite (truthy_Qc_true duration Hd), (truthy_Qc_true _ Hv). simpl.
  by destruct (while_loop _ _ _ _ _).
Qed.

Lemma calculate_fixed_reaching (fuel N : nat) (duration : Qc)
    (value : number) :
  0 < duration → reaches duration (num_val value) N → (N < fuel)%nat →
  calculate_segments fuel duration "duration" value
  = Some (Returns (InfoArtifact (Segments
      (plan_shape duration (num_val value) N)))).
Proof.
  intros Hd Hreach Hfuel. rewrite calculate_fixed.
  - by rewrite (while_loop_shape _ _ N).
  - by apply nonzero_of_pos.
  - apply nonzero_of_pos, (reaches_len _ _ _ Hreach).
Qed.

End Calculator.

(** ** Results on the segment calculator *)

Section PlannerResults.
Local Open Scope Qc_scope.







(** The guard of the calculator: a zero duration, an empty method or a zero
  value is answered with the "missing inputs" error, whatever the rest. *)
Lemma guard_rejects (fuel : nat) (duration : Qc) (method : string)
  (value : number) :
duration = 0 ∨ method = EmptyString ∨ num_val value = 0 →
calculate_segments fuel duration method value
= Some (Returns (ErrorArtifact missing_inputs)).
Proof.
unfold calculate_segments, truthy_num. intros [Hd|[->|Hv]].
- by rewrite (truthy_Qc_false _ Hd).
- simpl. by rewrite orb_true_r.
- rewrite (truthy_Qc_false _ Hv). simpl. by rewrite !orb_true_r.
Qed.

Lemma unknown_method_rejected (fuel : nat) (duration : Qc) (method : string)
  (value : number) :
method ≠ "equal" → method ≠ "duration" →
∃ msg : string,
  calculate_segments fuel duration method value
  = Some (Returns (ErrorArtifact msg)).
Proof.
intros Heq Hdur. unfold calculate_segments.
destruct (negb _ || negb _ || negb _); [by eexists|].
rewrite !decide_False by done. by eexists.
Qed.

(** C4, as amended.  A zero duration, a zero count, a zero length and a
  method other than "equal" and "duration" are answered with an error
  and no segment list.  A duration below zero is not rejected: the
  "duration" method answers it with an empty segment list, and the
  "equal" method with as many segments as the count asks for. *)
Theorem invalid_inputs (fuel : nat) (duration : Qc) (method : string)
  (value : number) :
(duration = 0 ∨ num_val value = 0 ∨
 (method ≠ "equal" ∧ method ≠ "duration") →
 ∃ msg : string,
   calculate_segments fuel duration method value
   = Some (Returns (ErrorArtifact msg))) ∧
(duration < 0 → num_val value ≠ 0 →
 calculate_segments (S fuel) duration "duration" value
 = Some (Returns (InfoArtifact (Segments [])))) ∧
(duration < 0 → ∀ count : Z, (1 ≤ count)%Z →
 ∃ segments : list segment,
   calculate_segments fuel duration "equal" (Int count)
   = Some (Returns (InfoArtifact (Segments segments))) ∧
   length segments = Z.to_nat count).
Proof.
split_and!.
- intros [Hd|[Hv|[Heq Hdur]]].
  + eexists. apply guard_rejects. by left.
  + eexists. apply guard_rejects. by right; right.
  + by apply unknown_method_rejected.
- intros Hd Hv. rewrite calculate_fixed; [|by apply nonzero_of_neg|done].
  simpl. rewrite decide_False; [done|].
  by apply Qcle_not_lt, Qclt_le_weak.
- intros Hd count Hcount. eexists. split.
  + apply calculate_equal; [by apply nonzero_of_neg | lia].
  + apply plan_shape_length.
Qed.

Lemma invalid_inputs_witness :
(∃ msg : string,
   calculate_segments 0 (Qc_of_Z 10) "halves" (Int 2)
   = Some (Returns (ErrorArtifact msg))) ∧
calculate_segments 1 (Qc_of_Z (-5)) "duration" (Int 2)
= Some (Returns (InfoArtifact (Segments []))).
Proof.
destruct (invalid_inputs 0 (Qc_of_Z 10) "halves" (Int 2)) as (Herr & _ & _).
destruct (invalid_inputs 0 (Qc_of_Z (-5)) "duration" (Int 2))
  as (_ & Hneg & _).
split.
- apply Herr. right; right. split; discriminate.
- apply Hneg; [reflexivity | discriminate].
Defined.

(** C4, as stated, fails at the duration -5: with the "equal" method and
  the count 2 the calculator answers with two segments. *)
Lemma negative_duration_planned :
calculate_segments 0 (Qc_of_Z (-5)) "equal" (Int 2)
= Some (Returns (InfoArtifact (Segments
    [ Segment 0 (Qc_of_Z (-5));
      Segment (Qc_of_Z (-5) / Qc_of_Z 2) (Qc_of_Z (-5)) ]))) ∧
¬ ∃ msg : string,
    calculate_segments 0 (Qc_of_Z (-5)) "equal" (Int 2)
    = Some (Returns (ErrorArtifact msg)).
Proof.
assert (calculate_segments 0 (Qc_of_Z (-5)) "equal" (Int 2)
  = Some (Returns (InfoArtifact (Segments
      [ Segment 0 (Qc_of_Z (-5));
        Segment (Qc_of_Z (-5) / Qc_of_Z 2) (Qc_of_Z (-5)) ])))) as Hrun
  by by_compute.
split; [exact Hrun|]. intros [msg Hmsg]. rewrite Hrun in Hmsg. discriminate.
Qed.

(** C5.  The [while] loop of the "duration" method does not end on a
  duration above zero and a length below zero (the guard turns away only
  the length zero): no number of passes yields a result. *)
Theorem negative_length_runs_forever (fuel : nat) (duration : Qc)
  (value : number) :
0 < duration → num_val value < 0 →
calculate_segments fuel duration "duration" value = None.
Proof.
intros Hd Hv.
rewrite calculate_fixed;
  [|by apply nonzero_of_pos | by apply nonzero_of_neg].
rewrite while_loop_stuck; [done| by apply Qclt_le_weak | done].
Qed.

Lemma negative_length_runs_forever_witness :
calculate_segments 1000 (Qc_of_Z 10) "duration" (Int (-1)) = None.
Proof.
apply (negative_length_runs_forever 1000 (Qc_of_Z 10) (Int (-1)));
  reflexivity.
Defined.

End PlannerResults.

(** ** Steps of the tools *)

Section Steps.
Context (h : host).

Lemma bind_returns {A B : Type} (m : prog A) (k : A → prog B) (w w' : world)
    (a : A) :
  m w = Some (Returns a, w') → (m ≫= k) w = k a w'.
Proof. intros Hm. unfold mbind, prog_bind. by rewrite Hm. Qed.

Lemma bind_raises {A B : Type} (m : prog A) (k : A → prog B) (w w' : world)
    (e : exception) :
  m w = Some (Raises e, w') → (m ≫= k) w = Some (Raises e, w').
Proof. intros Hm. unfold mbind, prog_bind. by rewrite Hm. Qed.

Lemma bind_out_of_fuel {A B : Type} (m : prog A) (k : A → prog B)
    (w : world) :
  m w = None → (m ≫= k) w = None.
Proof. intros Hm. unfold mbind, prog_bind. by rewrite Hm. Qed.

Lemma path_exists_true (p : string) (w : world) :
  p ∈ files w → path_exists p w = Some (Returns true, w).
Proof. intros Hp. unfold path_exists. by rewrite bool_decide_eq_true_2. Qed.

Lemma path_exists_false (p : string) (w : world) :
  p ∉ files w → path_exists p w = Some (Returns false, w).
Proof. intros Hp. unfold path_exists. by rewrite bool_decide_eq_false_2. Qed.

(** Deleting what is in the way returns, and starts no process. *)
Lemma delete_existing_returns (out : string) (w : world) :
  ∃ w' : world,
    delete_existing out w = Some (Returns (), w') ∧
    spawned w' = spawned w.
Proof.
  unfold delete_existing, path_exists, mbind, prog_bind.
  destruct (bool_decide (out ∈ files w)); simpl; by eexists.
Qed.

Lemma subprocess_run_unchecked (cmd : list string) (w : world) (rc : Z)
    (out : string) (fs' : gset string) :
  run_process h cmd (files w) = (Exited rc out, fs') →
  subprocess_run h false cmd w
  = Some (Returns (Completed rc out),
          World fs' (spawned w ++ [cmd]) (printed w)).
Proof. intros Hrun. unfold subprocess_run. by rewrite Hrun. Qed.

Lemma subprocess_run_checked_fails (cmd : list string) (w : world) (rc : Z)
    (out : string) (fs' : gset string) :
  run_process h cmd (files w) = (Exited rc out, fs') → rc ≠ 0%Z →
  subprocess_run h true cmd w
  = Some (Raises (CalledProcessError rc cmd),
          World fs' (spawned w ++ [cmd]) (printed w)).
Proof.
  intros Hrun Hrc. unfold subprocess_run. rewrite Hrun.
  by apply Z.eqb_neq in Hrc as ->.
Qed.

End Steps.

(** ** A source that is not on disk *)

Section Missing.
Context (h : host).

Lemma get_video_info_missing (mov : string) (w : world) :
  mov ∉ files w →
  get_video_info h mov w
  = Some (Returns (ErrorArtifact ("File not found: " +:+ mov)), w).
Proof.
  intros Hmov. unfold get_video_info.
  by rewrite (bind_returns _ _ _ _ _ (path_exists_false mov w Hmov)).
Qed.

Lemma split_video_missing (mov : string) (segments : list segment)
    (output_name : option string) (w : world) :
  mov ∉ files w →
  split_video h mov segments output_name w
  = Some (Returns (ErrorArtifact ("Error: File not found: " +:+ mov)), w).
Proof.
  intros Hmov. unfold split_video.
  by rewrite (bind_returns _ _ _ _ _ (path_exists_false mov w Hmov)).
Qed.

Lemma extract_audio_missing (fuel : nat) (mov : string)
    (output_name : option string) (w : world) :
  mov ∉ files w →
  extract_audio h fuel mov output_name w
  = Some (Returns (ErrorArtifact ("Error: File not found: " +:+ mov)), w).
Proof.
  intros Hmov. unfold extract_audio.
  by rewrite (bind_returns _ _ _ _ _ (path_exists_false mov w Hmov)).
Qed.

Lemma add_timecode_overlay_missing (mov : string)
    (output_name : option string) (w : world) :
  mov ∉ files w →
  add_timecode_overlay h mov output_name w
  = Some (Returns (ErrorArtifact ("Error: File not found: " +:+ mov)), w).
Proof.
  intros Hmov. unfold add_timecode_overlay.
  by rewrite (bind_returns _ _ _ _ _ (path_exists_false mov w Hmov)).
Qed.

End Missing.

(** C8.  When the source path is not on disk, the probe, the splitter, the
    audio extractor and the timecode overlay each return a "File not found"
    error in an unchanged world: no process is started, nothing is deleted
    and nothing is printed. *)
Theorem missing_source_not_found (h : host) (fuel : nat) (mov : string)
    (segments : list segment) (output_name : option string) (w : world) :
  mov ∉ files w →
  get_video_info h mov w
  = Some (Returns (ErrorArtifact ("File not found: " +:+ mov)), w) ∧
  split_video h mov segments output_name w
  = Some (Returns (ErrorArtifact ("Error: File not found: " +:+ mov)), w) ∧
  extract_audio h fuel mov output_name w
  = Some (Returns (ErrorArtifact ("Error: File not found: " +:+ mov)), w) ∧
  add_timecode_overlay h mov output_name w
  = Some (Returns (ErrorArtifact ("Error: File not found: " +:+ mov)), w).
Proof.
  intros Hmov. split_and!.
  - by apply get_video_info_missing.
  - by apply split_video_missing.
  - by apply extract_audio_missing.
  - by apply add_timecode_overlay_missing.
Qed.

Lemma missing_source_not_found_witness :
  ("gone.mp4" ∉ files (disk_with ["clip.mp4"])) ∧
  split_video (exits_with 0) "gone.mp4" [Segment 0%Qc 1%Qc] None
    (disk_with ["clip.mp4"])
  = Some (Returns (ErrorArtifact "Error: File not found: gone.mp4"),
          disk_with ["clip.mp4"]).
Proof.
  assert ("gone.mp4" ∉ files (disk_with ["clip.mp4"])) as Hgone
    by (vm_compute; discriminate).
  split; [exact Hgone|].
  exact (proj1 (proj2 (missing_source_not_found (exits_with 0) 0 "gone.mp4"
    [Segment 0%Qc 1%Qc] None (disk_with ["clip.mp4"]) Hgone))).
Defined.

(** ** The splitter *)

Section Splitting.
Context (h : host) (Hrun : programs_run h).

(** The [for] loop over the segments from number [i] on: it returns with
    one more output per segment, named by [split_out], and has started
    one command per segment, in order. *)
Lemma split_loop_returns (mov pth nam out_name ext : string) (count : nat)
    (segments : list segment) (i : nat) (output_files : list string)
    (w : world) :
  ∃ w' : world,
    split_loop h mov pth nam out_name ext count i segments output_files w
    = Some (Returns (output_files ++
              (split_out pth nam out_name ext count
                 <$> seq i (length segments))), w') ∧
    spawned w'
    = spawned w ++
        zip_with (λ (j : nat) (s : segment),
                    split_cmd h mov (split_out pth nam out_name ext count j) s)
          (seq i (length segments)) segments.
Proof using Hrun.
  revert i output_files w.
  induction segments as [|s rest IH]; intros i output_files w.
  - exists w. simpl. by rewrite !app_nil_r.
  - cbn [split_loop].
    destruct (delete_existing_returns
      (split_out pth nam out_name ext count i) w) as (w1 & Hdel & Hsp1).
    rewrite (bind_returns _ _ _ _ _ Hdel).
    destruct (Hrun (split_cmd h mov
      (split_out pth nam out_name ext count i) s) (files w1))
      as (rc & out & fs' & Hproc).
    rewrite (bind_returns _ _ _ _ _
      (subprocess_run_unchecked h _ _ _ _ _ Hproc)).
    destruct (IH (S i)
      (output_files ++ [split_out pth nam out_name ext count i])
      (World fs' (spawned w1 ++
         [split_cmd h mov (split_out pth nam out_name ext count i) s])
         (printed w1))) as (w' & Hloop & Hsp).
    exists w'. split.
    + rewrite Hloop. simpl. by rewrite <-app_assoc.
    + rewrite Hsp. simpl. by rewrite Hsp1, <-app_assoc.
Qed.

(** The splitter on a source that is on disk and at least one segment. *)
Lemma split_video_returns (mov : string) (segments : list segment)
    (output_name : option string) (w : world) :
  mov ∈ files w → segments ≠ [] →
  let out_name := default "segment" output_name in
  let ext := (splitext mov).2 in
  let pth := (split (splitext mov).1).1 in
  let nam := (split (splitext mov).1).2 in
  let outs :=
    split_out pth nam out_name ext (length segments)
      <$> seq 1 (length segments) in
  ∃ w' : world,
    split_video h mov segments output_name w
    = Some (Returns (TextArtifact
        ("Clips successfully created: " +:+ str_join ", " outs)), w') ∧
    spawned w' = spawned w ++ zip_with (split_cmd h mov) outs segments ∧
    written w' = written w ++ outs.
Proof using Hrun.
  intros Hmov Hsegs out_name ext pth nam outs. unfold split_video.
  rewrite (bind_returns _ _ _ _ _ (path_exists_true mov w Hmov)). simpl.
  rewrite bool_decide_eq_false_2 by done.
  destruct (splitext mov) as [stem ext'] eqn:Hext.
  destruct (split stem) as [pth' nam'] eqn:Hsplit.
  simpl in ext, pth, nam.
  destruct (split_loop_returns mov pth nam out_name ext (length segments)
    segments 1 [] w) as (w' & Hloop & Hsp).
  exists w'. fold out_name.
  rewrite (bind_returns _ _ _ _ _ Hloop). simpl.
  assert (spawned w' = spawned w ++ zip_with (split_cmd h mov) outs segments)
    as Hspawned.
  { rewrite Hsp. f_equal. unfold outs. by rewrite zip_with_fmap_l. }
  split_and!; [done|done|].
  unfold written. rewrite Hspawned, omap_app. f_equal.
  unfold outs. clear.
  generalize (split_out pth nam out_name ext (length segments)) as f.
  generalize 1%nat as i.
  induction segments as [|s rest IH]; intros i f; [done|].
  simpl. f_equal. apply IH.
Qed.

End Splitting.

(** ** Sequence numbers *)

Lemma format_02_length (i : nat) : 2 ≤ String.length (format_02 i).
Proof.
  unfold format_02. generalize (pretty i) as digits. intros digits.
  assert (∀ n : nat,
    String.length (times "0" n +:+ digits) = n + String.length digits) as Hlen.
  { induction n as [|n IH]; [done|].
    change (times "0" (S n) +:+ digits)
      with (String "0" (times "0" n +:+ digits)).
    simpl. by rewrite IH. }
  rewrite Hlen. lia.
Qed.

Lemma format_02_two_digits (i : nat) :
  i < 100 →
  format_02 i = String (digit (i / 10)) (String (digit (i mod 10)) EmptyString).
Proof.
  intros Hi.
  assert (forallb (λ j : nat,
    bool_decide (format_02 j
      = String (digit (j / 10)) (String (digit (j mod 10)) EmptyString)))
    (seq 0 100) = true) as Hall by (vm_compute; reflexivity).
  rewrite forallb_forall in Hall.
  assert (In i (seq 0 100)) as Hin by (apply in_seq; lia).
  apply Hall in Hin. by apply bool_decide_eq_true_1 in Hin.
Qed.

(** ** Results on the splitter *)

(** C10, as amended.  On a source that is on disk and with external
    programs that run: with more than one segment, output number [i]
    (counted from one) is the source's directory joined with the source's
    base name, an underscore, the name token ("segment" by default), an
    underscore, the decimal sequence number filled with zeros to at least
    two characters (exactly two digits below one hundred), and the source's
    extension; with exactly one segment there is no sequence number.  In
    particular clip.mp4 with three segments and the default token gives
    clip_segment_01.mp4, clip_segment_02.mp4 and clip_segment_03.mp4. *)
Theorem split_outputs_numbered (h : host) :
  programs_run h →
  (∀ (mov : string) (segments : list segment) (output_name : option string)
     (w : world),
     mov ∈ files w → segments ≠ [] →
     let out_name := default "segment" output_name in
     let ext := (splitext mov).2 in
     let pth := (split (splitext mov).1).1 in
     let nam := (split (splitext mov).1).2 in
     ∃ (outs : list string) (w' : world),
       split_video h mov segments output_name w
       = Some (Returns (TextArtifact
           ("Clips successfully created: " +:+ str_join ", " outs)), w') ∧
       written w' = written w ++ outs ∧
       length outs = length segments ∧
       (length segments = 1 →
        outs = [join pth (nam +:+ "_" +:+ out_name +:+ ext)]) ∧
       (1 < length segments →
        ∀ i : nat, 1 ≤ i ≤ length segments →
          outs !! (i - 1)
          = Some (join pth
              (nam +:+ "_" +:+ out_name +:+ "_" +:+ format_02 i +:+ ext)) ∧
          2 ≤ String.length (format_02 i) ∧
          (i < 100 →
           format_02 i
           = String (digit (i / 10))
               (String (digit (i mod 10)) EmptyString)))) ∧
  (∀ (s1 s2 s3 : segment) (w : world),
     "clip.mp4" ∈ files w →
     ∃ w' : world,
       split_video h "clip.mp4" [s1; s2; s3] None w
       = Some (Returns (TextArtifact
           ("Clips successfully created: " +:+
            "clip_segment_01.mp4, clip_segment_02.mp4, clip_segment_03.mp4")),
           w') ∧
       written w'
       = written w ++
           ["clip_segment_01.mp4"; "clip_segment_02.mp4";
            "clip_segment_03.mp4"]).
Proof.
  intros Hrun. split.
  - intros mov segments output_name w Hmov Hsegs out_name ext pth nam.
    destruct (split_video_returns h Hrun mov segments output_name w Hmov Hsegs)
      as (w' & Hres & _ & Hwritten).
    eexists _, w'. split; [exact Hres|]. split; [exact Hwritten|].
    fold out_name ext pth nam. split_and!.
    + by rewrite length_fmap, length_seq.
    + intros Hone. rewrite Hone. simpl. unfold split_out, split_sfx.
      by rewrite decide_False by lia.
    + intros Hmany i Hi. split_and!.
      * rewrite list_lookup_fmap, lookup_seq_lt by lia. simpl.
        replace (S (i - 1)) with i by lia.
        unfold split_out, split_sfx. by rewrite decide_True by lia.
      * apply format_02_length.
      * apply format_02_two_digits.
  - intros s1 s2 s3 w Hmov.
    destruct (split_video_returns h Hrun "clip.mp4" [s1; s2; s3] None w Hmov)
      as (w' & Hres & _ & Hwritten); [done|].
    exists w'. split; [exact Hres | exact Hwritten].
Qed.

Lemma split_outputs_numbered_witness :
  programs_run (exits_with 0) ∧
  ∃ w' : world,
    split_video (exits_with 0) "clip.mp4"
      [Segment 0%Qc 1%Qc; Segment 1%Qc (Qc_of_Z 2);
       Segment (Qc_of_Z 2) (Qc_of_Z 3)] None (disk_with ["clip.mp4"])
    = Some (Returns (TextArtifact
        ("Clips successfully created: " +:+
         "clip_segment_01.mp4, clip_segment_02.mp4, clip_segment_03.mp4")),
        w').
Proof.
  assert (programs_run (exits_with 0)) as Hrun.
  { intros cmd fs. exists 0%Z, EmptyString, fs. reflexivity. }
  assert ("clip.mp4" ∈ files (disk_with ["clip.mp4"])) as Hmov.
  { apply (bool_decide_eq_true_1 _). vm_compute. reflexivity. }
  split; [exact Hrun|].
  destruct (proj2 (split_outputs_numbered (exits_with 0) Hrun)
    (Segment 0%Qc 1%Qc) (Segment 1%Qc (Qc_of_Z 2))
    (Segment (Qc_of_Z 2) (Qc_of_Z 3)) (disk_with ["clip.mp4"]) Hmov)
    as (w' & Hres & _).
  exists w'. exact Hres.
Defined.

(** C10, as stated, fails at one hundred segments: the last output carries
    the three-digit sequence number 100. *)
Lemma hundredth_output :
  ∃ w' : world,
    snd <$> split_video (exits_with 0) "clip.mp4"
      (replicate 100 (Segment 0%Qc 1%Qc)) None (disk_with ["clip.mp4"])
    = Some w' ∧
    written w' !! 99 = Some "clip_segment_100.mp4" ∧
    format_02 100 = "100".
Proof.
  destruct (split_video (exits_with 0) "clip.mp4"
    (replicate 100 (Segment 0%Qc 1%Qc)) None (disk_with ["clip.mp4"]))
    as [[r w']|] eqn:Hrun.
  - exists w'. split; [done|]. split; [|by vm_compute].
    assert (written <$> (snd <$> split_video (exits_with 0) "clip.mp4"
      (replicate 100 (Segment 0%Qc 1%Qc)) None (disk_with ["clip.mp4"]))
      = Some (written w')) as Hw by (by rewrite Hrun).
    apply (f_equal (λ o, o ≫= (.!! 99))) in Hw. simpl in Hw.
    rewrite <-Hw. vm_compute. reflexivity.
  - exfalso. revert Hrun. vm_compute. discriminate.
Qed.

(** ** Exit statuses *)

Section Failing.
Context (h : host) (Hfail : programs_fail h).

Lemma programs_fail_run : programs_run h.
Proof using Hfail.
  intros cmd fs. destruct (Hfail cmd fs) as (rc & out & fs' & Hrun & _).
  by exists rc, out, fs'.
Qed.

(** A command started with [check=True] whose program fails, under the
    handler for [CalledProcessError]: the handler's artifact is the
    result. *)
Lemma checked_run_fails (cmd : list string) (success : artifact)
    (failure : string) (w : world) :
  ∃ (e : exception) (w' : world),
    try_except
      (_ ← subprocess_run h true cmd; mret success)
      is_CalledProcessError
      (λ e, mret (ErrorArtifact (failure +:+ str_of_exception h e))) w
    = Some (Returns (ErrorArtifact (failure +:+ str_of_exception h e)), w').
Proof using Hfail.
  destruct (Hfail cmd (files w)) as (rc & out & fs' & Hrun & Hrc).
  eexists _, _. unfold try_except.
  by rewrite (bind_raises _ _ _ _ _
    (subprocess_run_checked_fails h _ _ _ _ _ Hrun Hrc)).
Qed.

Lemma add_timecode_overlay_fails (mov : string)
    (output_name : option string) (w : world) :
  mov ∈ files w →
  ∃ (msg : string) (w' : world),
    add_timecode_overlay h mov output_name w
    = Some (Returns (ErrorArtifact msg), w').
Proof using Hfail.
  intros Hmov. unfold add_timecode_overlay.
  rewrite (bind_returns _ _ _ _ _ (path_exists_true mov w Hmov)). simpl.
  destruct (splitext mov) as [stem ext]. destruct (split stem) as [pth nam].
  match goal with
  | |- context [delete_existing ?out] =>
      destruct (delete_existing_returns out w) as (w1 & Hdel & _)
  end.
  rewrite (bind_returns _ _ _ _ _ Hdel).
  match goal with
  | |- context [try_except (_ ← subprocess_run h true ?cmd; mret ?a) _ _] =>
      destruct (checked_run_fails cmd a "Error adding timecode overlay: " w1)
        as (e & w' & Hrun)
  end.
  eexists _, w'. exact Hrun.
Qed.

(** The audio extractor on a name that needs no cleanup. *)
Lemma extract_audio_fails (fuel : nat) (mov name : string) (w : world) :
  mov ∈ files w → endswith (lower name) ".mp3" = false →
  ∃ (msg : string) (w' : world),
    extract_audio h (S fuel) mov (Some name) w
    = Some (Returns (ErrorArtifact msg), w').
Proof using Hfail.
  intros Hmov Hname. unfold extract_audio.
  rewrite (bind_returns _ _ _ _ _ (path_exists_true mov w Hmov)). simpl.
  destruct (splitext mov) as [stb ext]. destruct (split stb) as [pth nam].
  rewrite Hname.
  rewrite (bind_returns (mret name) _ w w name) by done.
  match goal with
  | |- context [delete_existing ?out] =>
      destruct (delete_existing_returns out w) as (w1 & Hdel & _)
  end.
  rewrite (bind_returns _ _ _ _ _ Hdel).
  match goal with
  | |- context [try_except (_ ← subprocess_run h true ?cmd; mret ?a) _ _] =>
      destruct (checked_run_fails cmd a "Error extracting audio: " w1)
        as (e & w' & Hrun)
  end.
  eexists _, w'. exact Hrun.
Qed.

End Failing.

(** C7.  The splitter does not surface a failed cut: when every external
    program exits with a non-zero status, splitting a source that is on
    disk still returns the success text, after one command per segment;
    under the same programs the timecode overlay and the audio extractor,
    which check the status, return an error. *)
Theorem split_ignores_exit_status (h : host) (mov : string)
    (segments : list segment) (output_name : option string) (w : world) :
  programs_fail h → mov ∈ files w → segments ≠ [] →
  (∃ (msg : string) (w' : world),
     split_video h mov segments output_name w
     = Some (Returns (TextArtifact msg), w') ∧
     length (spawned w') = length (spawned w) + length segments) ∧
  (∃ (msg : string) (w' : world),
     add_timecode_overlay h mov output_name w
     = Some (Returns (ErrorArtifact msg), w')) ∧
  (∀ (fuel : nat) (name : string),
     endswith (lower name) ".mp3" = false →
     ∃ (msg : string) (w' : world),
       extract_audio h (S fuel) mov (Some name) w
       = Some (Returns (ErrorArtifact msg), w')).
Proof.
  intros Hfail Hmov Hsegs. split_and!.
  - destruct (split_video_returns h (programs_fail_run h Hfail) mov segments
      output_name w Hmov Hsegs) as (w' & Hres & Hspawned & _).
    eexists _, w'. split; [exact Hres|].
    rewrite Hspawned, length_app, length_zip_with, length_fmap, length_seq.
    lia.
  - by apply add_timecode_overlay_fails.
  - intros fuel name Hname. by apply extract_audio_fails.
Qed.

Lemma split_ignores_exit_status_witness :
  programs_fail (exits_with 1) ∧
  ∃ (msg : string) (w' : world),
    split_video (exits_with 1) "clip.mp4" [Segment 0%Qc 1%Qc] None
      (disk_with ["clip.mp4"])
    = Some (Returns (TextArtifact msg), w').
Proof.
  assert (programs_fail (exits_with 1)) as Hfail.
  { intros cmd fs. exists 1%Z, EmptyString, fs. split; [reflexivity|lia]. }
  assert ("clip.mp4" ∈ files (disk_with ["clip.mp4"])) as Hmov.
  { apply (bool_decide_eq_true_1 _). vm_compute. reflexivity. }
  split; [exact Hfail|].
  destruct (split_ignores_exit_status (exits_with 1) "clip.mp4"
    [Segment 0%Qc 1%Qc] None (disk_with ["clip.mp4"]) Hfail Hmov
    ltac:(discriminate)) as ((msg & w' & Hres & _) & _).
  exists msg, w'. exact Hres.
Defined.

(** The failed cut of C7 at work: the one program exits with status 1 and
    the splitter reports the clip as created. *)
Example failed_cut_reported_created :
  fst <$> split_video (exits_with 1) "clip.mp4" [Segment 0%Qc 1%Qc] None
    (disk_with ["clip.mp4"])
  = Some (Returns (TextArtifact
      "Clips successfully created: clip_segment.mp4")).
Proof. by_compute. Qed.

(** ** Results on the audio extractor *)

(** C6.  Exceptions leave the tools: the audio extractor called without an
    output name on a source that is on disk raises [AttributeError] (the
    cleanup loop calls [lower] on [None] before the default name is
    chosen), and the calculator called with the "equal" method and a
    [float] value raises [TypeError] (from [range]). *)
Theorem exceptions_escape (h : host) (fuel : nat) (mov : string) (w : world)
    (duration q : Qc) :
  mov ∈ files w → duration ≠ 0%Qc → q ≠ 0%Qc →
  extract_audio h (S fuel) mov None w
  = Some (Raises
      (AttributeError "'NoneType' object has no attribute 'lower'"), w) ∧
  calculate_segments fuel duration "equal" (Float q)
  = Some (Raises
      (TypeError "'float' object cannot be interpreted as an integer")).
Proof.
  intros Hmov Hd Hq. split.
  - unfold extract_audio.
    rewrite (bind_returns _ _ _ _ _ (path_exists_true mov w Hmov)). simpl.
    by destruct (splitext mov) as [stb ext], (split stb) as [pth nam].
  - unfold calculate_segments, truthy_num. simpl num_val.
    by rewrite (truthy_Qc_true _ Hd), (truthy_Qc_true _ Hq).
Qed.

Lemma exceptions_escape_witness :
  extract_audio (exits_with 0) 1 "clip.mp4" None (disk_with ["clip.mp4"])
  = Some (Raises
      (AttributeError "'NoneType' object has no attribute 'lower'"),
      disk_with ["clip.mp4"]) ∧
  calculate_segments 0 (Qc_of_Z 10) "equal" (Float (Qc_of_Z 5 / Qc_of_Z 2))
  = Some (Raises
      (TypeError "'float' object cannot be interpreted as an integer")).
Proof.
  apply (exceptions_escape (exits_with 0) 0 "clip.mp4"
    (disk_with ["clip.mp4"]) (Qc_of_Z 10) (Qc_of_Z 5 / Qc_of_Z 2)).
  - apply (bool_decide_eq_true_1 _). vm_compute. reflexivity.
  - discriminate.
  - discriminate.
Defined.

(** The cleanup loop on a name that ends with ".mp3" and off which
    [splitext] takes nothing (a last component that is all dots and
    extension, as ".mp3"): every pass finds the same name. *)
Lemma naming_cleanup_stuck (fuel : nat) (name : string) (w : world) :
  endswith (lower name) ".mp3" = true → (splitext name).1 = name →
  naming_cleanup fuel (Some name) w = None.
Proof.
  intros Hsuffix Hkept. revert w.
  induction fuel as [|fuel IH]; intros w; [done|].
  cbn [naming_cleanup]. rewrite Hsuffix.
  destruct (splitext name) as [stem ext]. simpl in Hkept. subst stem.
  unfold mbind, prog_bind, print. apply IH.
Qed.

(** What the cleanup loop returns, when it returns, does not end with
    ".mp3" in any case of the letters. *)
Lemma naming_cleanup_clean (fuel : nat) (out_name : option string)
    (w w' : world) (name : string) :
  naming_cleanup fuel out_name w = Some (Returns name, w') →
  endswith (lower name) ".mp3" = false.
Proof.
  revert out_name w. induction fuel as [|fuel IH]; intros out_name w; [done|].
  cbn [naming_cleanup]. destruct out_name as [s|]; [|done].
  destruct (endswith (lower s) ".mp3") eqn:Hs.
  - unfold mbind, prog_bind, print. destruct (splitext s) as [stem ext].
    apply IH.
  - intros Hret. injection Hret as Hname _. by subst.
Qed.

(** C9.  The cleanup loop of the audio extractor does not strip a name that
    is all extension, such as ".mp3": [splitext] leaves such a name as it
    is, the name still ends with ".mp3", and on a source that is on disk no
    number of passes yields a result. *)
Theorem cleanup_never_ends (h : host) (fuel : nat) (mov name : string)
    (w : world) :
  endswith (lower name) ".mp3" = true → (splitext name).1 = name →
  mov ∈ files w →
  extract_audio h fuel mov (Some name) w = None.
Proof.
  intros Hsuffix Hkept Hmov. unfold extract_audio.
  rewrite (bind_returns _ _ _ _ _ (path_exists_true mov w Hmov)). simpl.
  destruct (splitext mov) as [stb ext], (split stb) as [pth nam].
  by rewrite (bind_out_of_fuel _ _ _
    (naming_cleanup_stuck fuel name w Hsuffix Hkept)).
Qed.

Lemma cleanup_never_ends_witness :
  extract_audio (exits_with 0) 1000 "clip.mp4" (Some ".mp3")
    (disk_with ["clip.mp4"]) = None.
Proof.
  apply (cleanup_never_ends (exits_with 0) 1000 "clip.mp4" ".mp3"
    (disk_with ["clip.mp4"])).
  - reflexivity.
  - reflexivity.
  - apply (bool_decide_eq_true_1 _). vm_compute. reflexivity.
Defined.

(** The naming scenario: the source clip.mp4 and the requested name
    "audio.mp3" give the destination audio.mp3, after one pass of the
    cleanup. *)
Example naming_scenario :
  (λ r, (r.1, written r.2, printed r.2))
    <$> extract_audio (exits_with 0) 2 "clip.mp4" (Some "audio.mp3")
          (disk_with ["clip.mp4"])
  = Some (Returns (TextArtifact "Audio successfully extracted: audio.mp3"),
          ["audio.mp3"], ["Naming cleanup on: audio.mp3"]).
Proof. by_compute. Qed.

(** The suffix is taken off as often as it is there, whatever its case. *)
Example repeated_suffix :
  (λ r, (r.1, written r.2))
    <$> extract_audio (exits_with 0) 4 "media/clip.mp4"
          (Some "audio.MP3.mp3.Mp3") (disk_with ["media/clip.mp4"])
  = Some (Returns
      (TextArtifact "Audio successfully extracted: media/audio.mp3"),
      ["media/audio.mp3"]).
Proof. by_compute. Qed.

(** * Part IV: further results *)

(** ** Deleting the destination, starting a program *)

Lemma delete_existing_spec (out : string) (w : world) :
  delete_existing out w = Some (Returns (), after_delete out w).
Proof.
  unfold delete_existing, after_delete, path_exists, mbind, prog_bind.
  by destruct (bool_decide (out ∈ files w)).
Qed.

Lemma subprocess_run_exited (h : host) (check : bool) (cmd : list string)
    (w : world) (rc : Z) (out : string) (fs' : gset string) :
  run_process h cmd (files w) = (Exited rc out, fs') →
  subprocess_run h check cmd w
  = Some (if check && negb (rc =? 0)%Z
          then Raises (CalledProcessError rc cmd)
          else Returns (Completed rc out), after_run cmd fs' w).
Proof.
  intros Hrun. unfold subprocess_run. rewrite Hrun.
  by destruct (check && negb (rc =? 0)%Z).
Qed.

Lemma subprocess_run_not_started (h : host) (check : bool)
    (cmd : list string) (w : world) (msg : string) (fs' : gset string) :
  run_process h cmd (files w) = (NotStarted msg, fs') →
  subprocess_run h check cmd w
  = Some (Raises (OSError msg), after_run cmd fs' w).
Proof. intros Hrun. unfold subprocess_run. by rewrite Hrun. Qed.


(** ** The probe *)

(** X1.  On a source that is on disk, when ffprobe exits, with whatever
    status, and what it wrote, stripped of white space, reads as the number
    [d], the probe returns the info artifact with the duration [d]; the one
    command started is ffprobe on the source, and nothing is printed. *)
Theorem probe_reads_duration (h : host) (mov : string) (w : world) (rc : Z)
    (out : string) (fs' : gset string) (d : Qc) :
  mov ∈ files w →
  run_process h (ffprobe_cmd mov) (files w) = (Exited rc out, fs') →
  float_of_str h (strip out) = Some d →
  get_video_info h mov w
  = Some (Returns (InfoArtifact (Duration d)),
          World fs' (spawned w ++ [ffprobe_cmd mov]) (printed w)).
Proof.
  intros Hmov Hrun Hfloat. unfold get_video_info.
  rewrite (bind_returns _ _ _ _ _ (path_exists_true mov w Hmov)). simpl.
  unfold try_except. fold (ffprobe_cmd mov).
  rewrite (bind_returns _ _ _ _ _
    (subprocess_run_exited h false _ _ _ _ _ Hrun)).
  simpl. by rewrite Hfloat.
Qed.

Lemma probe_reads_duration_witness :
  get_video_info (reports "12.5 " (Qc_of_Z 25 / Qc_of_Z 2)) "clip.mp4"
    (disk_with ["clip.mp4"])
  = Some (Returns (InfoArtifact (Duration (Qc_of_Z 25 / Qc_of_Z 2))),
          World (files (disk_with ["clip.mp4"])) [ffprobe_cmd "clip.mp4"] []).
Proof.
  apply (probe_reads_duration (reports "12.5 " (Qc_of_Z 25 / Qc_of_Z 2))
    "clip.mp4" (disk_with ["clip.mp4"]) 0 "12.5 ").
  - apply (bool_decide_eq_true_1 _). vm_compute. reflexivity.
  - reflexivity.
  - reflexivity.
Defined.

(** X2.  No exception leaves the probe: whatever the external program does
    (exit with any status, write anything, fail to start) and whatever is
    on disk, the probe returns, and what it returns is an error artifact or
    the info artifact of a duration; it starts one command at most. *)
Theorem probe_never_raises (h : host) (mov : string) (w : world) :
  ∃ (a : artifact) (w' : world),
    get_video_info h mov w = Some (Returns a, w') ∧
    ((∃ msg : string, a = ErrorArtifact msg) ∨
     (∃ d : Qc, a = InfoArtifact (Duration d))) ∧
    length (spawned w') ≤ S (length (spawned w)).
Proof.
  unfold get_video_info, path_exists, mbind at 1, prog_bind at 1.
  destruct (bool_decide (mov ∈ files w)); simpl.
  - unfold try_except, mbind, prog_bind, subprocess_run. simpl.
    destruct (run_process h _ (files w)) as [[rc out|msg] fs']; simpl.
    + destruct (float_of_str h (strip out)); simpl.
      * eexists _, _. split; [done|]. split; [right; by eexists|].
        simpl. rewrite length_app. simpl. lia.
      * eexists _, _. split; [done|]. split; [left; by eexists|].
        simpl. rewrite length_app. simpl. lia.
    + eexists _, _. split; [done|]. split; [left; by eexists|].
      simpl. rewrite length_app. simpl. lia.
  - eexists _, _. split; [done|]. split; [left; by eexists|]. lia.
Qed.

(** ** The segment calculator, beyond valid requests *)

Section Bounds.
Local Open Scope Qc_scope.

Lemma while_loop_bounded (fuel : nat) (duration len from : Qc)
    (acc segments : list segment) :
  Forall (λ s, start s < duration ∧ end_ s ≤ duration) acc →
  while_loop fuel duration len from acc = Some segments →
  Forall (λ s, start s < duration ∧ end_ s ≤ duration) segments.
Proof.
  revert from acc. induction fuel as [|fuel IH]; intros from acc Hacc; [done|].
  simpl. destruct (decide (from < duration)) as [Hlt|_].
  - apply IH. apply Forall_app. split; [done|].
    apply Forall_singleton. split; [done|]. apply min_le_second.
  - by intros [= <-].
Qed.

(** X3.  Whatever the request, no segment the calculator returns ends after
    the duration; with the "duration" method every segment also starts
    before the duration. *)
Theorem segments_within_duration (fuel : nat) (duration : Qc)
    (method : string) (value : number) (segments : list segment) :
  calculate_segments fuel duration method value
  = Some (Returns (InfoArtifact (Segments segments))) →
  Forall (λ s, end_ s ≤ duration) segments ∧
  (method = "duration" → Forall (λ s, start s < duration) segments).
Proof.
  unfold calculate_segments.
  destruct (negb _ || negb _ || negb _); [done|].
  destruct (decide (method = "equal")) as [->|Hne].
  - destruct value as [n|q]; [|done]. intros [= <-].
    split; [|done]. rewrite equal_loop_shape.
    apply Forall_fmap, Forall_forall. intros j _. apply min_le_second.
  - destruct (decide (method = "duration")) as [->|]; [|done].
    destruct (while_loop _ _ _ _ _) as [segs|] eqn:Hloop; [|done].
    intros [= <-].
    pose proof (while_loop_bounded _ _ _ _ _ _ (Forall_nil_2 _) Hloop) as Hall.
    split; [|intros _]; eapply Forall_impl; [exact Hall| |exact Hall|];
      by intros s [? ?].
Qed.

Lemma segments_within_duration_witness :
  Forall (λ s, end_ s ≤ Qc_of_Z 10)
    [Segment 0 (Qc_of_Z 4); Segment (Qc_of_Z 4) (Qc_of_Z 8);
     Segment (Qc_of_Z 8) (Qc_of_Z 10)].
Proof.
  apply (segments_within_duration 4 (Qc_of_Z 10) "duration"
    (Float (Qc_of_Z 4))).
  by_compute.
Defined.

(** X4.  A count below zero is not turned away: on a duration other than
    zero the "equal" method answers it with a success that holds no
    segment, the [range] of a negative number being empty. *)
Theorem negative_count_plans_nothing (fuel : nat) (duration : Qc)
    (count : Z) :
  duration ≠ 0 → (count < 0)%Z →
  calculate_segments fuel duration "equal" (Int count)
  = Some (Returns (InfoArtifact (Segments []))).
Proof.
  intros Hd Hcount. rewrite calculate_equal by (done || lia).
  by replace (Z.to_nat count) with 0%nat by lia.
Qed.

Lemma negative_count_plans_nothing_witness :
  calculate_segments 0 (Qc_of_Z 10) "equal" (Int (-3))
  = Some (Returns (InfoArtifact (Segments []))).
Proof.
  apply (negative_count_plans_nothing 0 (Qc_of_Z 10) (-3)).
  - discriminate.
  - lia.
Defined.



End Bounds.

(** ** The splitter, beyond its output names *)

(** X6.  With no segment to cut, the splitter returns the "No segments
    provided" error on a source that is on disk, in an unchanged world: no
    program is started and nothing is deleted. *)
Theorem split_nothing (h : host) (mov : string)
    (output_name : option string) (w : world) :
  mov ∈ files w →
  split_video h mov [] output_name w
  = Some (Returns (ErrorArtifact "Error: No segments provided."), w).
Proof.
  intros Hmov. unfold split_video.
  by rewrite (bind_returns _ _ _ _ _ (path_exists_true mov w Hmov)).
Qed.

Lemma split_nothing_witness :
  split_video (exits_with 0) "clip.mp4" [] None (disk_with ["clip.mp4"])
  = Some (Returns (ErrorArtifact "Error: No segments provided."),
          disk_with ["clip.mp4"]).
Proof.
  apply (split_nothing (exits_with 0) "clip.mp4" None
    (disk_with ["clip.mp4"])).
  apply (bool_decide_eq_true_1 _). vm_compute. reflexivity.
Defined.



(** ** Sequence numbers tell outputs apart *)

Lemma pretty_N_go_head (x : N) (s : string) :
  (0 < x)%N →
  ∃ (c : ascii) (rest : string),
    pretty_N_go x s = String c rest ∧ c ≠ "0"%char.
Proof.
  revert s. induction (N.lt_wf_0 x) as [x _ IH]; intros s Hx.
  rewrite pretty_N_go_step by done.
  destruct (decide (x < 10)%N) as [Hsmall|Hbig].
  - rewrite N.div_small, pretty_N_go_0, N.mod_small by done.
    eexists _, _. split; [done|].
    assert (x = 1 ∨ x = 2 ∨ x = 3 ∨ x = 4 ∨ x = 5 ∨ x = 6
          ∨ x = 7 ∨ x = 8 ∨ x = 9)%N as Hcases by lia.
    destruct Hcases as [->|[->|[->|[->|[->|[->|[->|[->| ->]]]]]]]]; done.
  - apply IH.
    + apply N.div_lt; lia.
    + apply N.div_str_pos. lia.
Qed.

Lemma pretty_nat_head (i : nat) :
  0 < i →
  ∃ (c : ascii) (rest : string), pretty i = String c rest ∧ c ≠ "0"%char.
Proof.
  intros Hi. destruct i as [|i]; [inversion Hi|].
  unfold pretty, pretty_nat, pretty, pretty_N.
  destruct (decide (N.of_nat (S i) = 0%N)) as [Hzero|_]; [done|].
  by apply pretty_N_go_head.
Qed.

(** Zeros in front of digit strings that do not start with a zero: equal
    results come from equal fills and equal digits. *)
Lemma zero_fill_inj (a b : nat) (c c' : ascii) (r r' : string) :
  c ≠ "0"%char → c' ≠ "0"%char →
  times "0" a +:+ String c r = times "0" b +:+ String c' r' →
  String c r = String c' r'.
Proof.
  intros Hc Hc'. revert b. induction a as [|a IH]; intros [|b] Heq.
  - done.
  - change (String c r = String "0" (times "0" b +:+ String c' r')) in Heq.
    by injection Heq as -> _.
  - change (String "0" (times "0" a +:+ String c r) = String c' r') in Heq.
    by injection Heq as <- _.
  - change (String "0" (times "0" a +:+ String c r)
            = String "0" (times "0" b +:+ String c' r')) in Heq.
    injection Heq as Heq. by eapply IH.
Qed.

Lemma format_02_inj (i j : nat) :
  0 < i → 0 < j → format_02 i = format_02 j → i = j.
Proof.
  intros Hi Hj. unfold format_02.
  destruct (pretty_nat_head i Hi) as (c & r & Hpi & Hc).
  destruct (pretty_nat_head j Hj) as (c' & r' & Hpj & Hc').
  rewrite Hpi, Hpj. intros Heq%zero_fill_inj; [|done..].
  apply (inj pretty). by rewrite Hpi, Hpj.
Qed.

Lemma string_app_length (s t : string) :
  String.length (s +:+ t) = String.length s + String.length t.
Proof.
  induction s as [|a s IH]; [done|].
  change (String a s +:+ t) with (String a (s +:+ t)). simpl. by rewrite IH.
Qed.

Lemma string_app_inj_r (s s' t : string) : s +:+ t = s' +:+ t → s = s'.
Proof.
  revert s'. induction s as [|a s IH]; intros [|a' s'] Heq.
  - done.
  - apply (f_equal String.length) in Heq.
    rewrite !string_app_length in Heq. simpl in Heq. lia.
  - apply (f_equal String.length) in Heq.
    rewrite !string_app_length in Heq. simpl in Heq. lia.
  - change (String a (s +:+ t) = String a' (s' +:+ t)) in Heq.
    injection Heq as -> Heq. f_equal. by apply IH.
Qed.

Lemma startswith_app (a : ascii) (s x y : string) :
  startswith (String a s +:+ x) "/" = startswith (String a s +:+ y) "/".
Proof.
  change (String a s +:+ x) with (String a (s +:+ x)).
  change (String a s +:+ y) with (String a (s +:+ y)).
  unfold startswith. cbn -[ascii_dec].
  destruct (ascii_dec _ _); [|done]. by destruct (s +:+ x), (s +:+ y).
Qed.

Lemma join_inj (pth b b' : string) :
  startswith b "/" = startswith b' "/" → join pth b = join pth b' → b = b'.
Proof.
  unfold join. intros <-. destruct (startswith b "/"); [done|].
  destruct (negb (truthy_str pth) || endswith pth "/").
  - by intros ?%(inj _).
  - by intros ?%(inj _)%(inj _).
Qed.

(** Outputs with different numbers have different paths, when there is
    more than one segment. *)
Lemma split_out_inj (pth nam out_name ext : string) (count i j : nat) :
  1 < count → 0 < i → 0 < j →
  split_out pth nam out_name ext count i
  = split_out pth nam out_name ext count j →
  i = j.
Proof.
  intros Hcount Hi Hj. unfold split_out, split_sfx.
  rewrite !decide_True by done. intros Heq%join_inj.
  - apply (inj _), (inj _), (inj _), (inj _), string_app_inj_r in Heq.
    by apply format_02_inj.
  - destruct nam as [|a nam]; [done|]. apply startswith_app.
Qed.

(** X8.  With external programs that run, the splitter writes one output
    per segment and the outputs of one call are different paths: a later
    cut of the same call neither deletes nor overwrites an earlier one. *)
Theorem split_outputs_distinct (h : host) (mov : string)
    (segments : list segment) (output_name : option string) (w : world) :
  programs_run h → mov ∈ files w → segments ≠ [] →
  ∃ (w' : world) (outs : list string),
    snd <$> split_video h mov segments output_name w = Some w' ∧
    written w' = written w ++ outs ∧
    length outs = length segments ∧
    NoDup outs.
Proof.
  intros Hrun Hmov Hsegs.
  destruct (split_video_returns h Hrun mov segments output_name w Hmov Hsegs)
    as (w' & Hres & _ & Hwritten).
  eexists w', _. rewrite Hres. split; [done|]. split; [exact Hwritten|].
  split; [by rewrite length_fmap, length_seq|].
  destruct (decide (1 < length segments)) as [Hmany|Hone].
  - apply NoDup_fmap_2_strong; [|apply NoDup_seq].
    intros i j [Hi _]%elem_of_seq [Hj _]%elem_of_seq.
    apply split_out_inj; lia.
  - destruct segments as [|s [|s' rest]]; [done| |simpl in Hone; lia].
    simpl. apply NoDup_singleton.
Qed.

Lemma split_outputs_distinct_witness :
  ∃ (w' : world) (outs : list string),
    snd <$> split_video (exits_with 0) "clip.mp4"
      [Segment 0%Qc 1%Qc; Segment 1%Qc (Qc_of_Z 2)] None
      (disk_with ["clip.mp4"]) = Some w' ∧
    written w' = written (disk_with ["clip.mp4"]) ++ outs ∧
    NoDup outs.
Proof.
  assert (programs_run (exits_with 0)) as Hrun.
  { intros cmd fs. exists 0%Z, EmptyString, fs. reflexivity. }
  assert ("clip.mp4" ∈ files (disk_with ["clip.mp4"])) as Hmov.
  { apply (bool_decide_eq_true_1 _). vm_compute. reflexivity. }
  destruct (split_outputs_distinct (exits_with 0) "clip.mp4"
    [Segment 0%Qc 1%Qc; Segment 1%Qc (Qc_of_Z 2)] None
    (disk_with ["clip.mp4"]) Hrun Hmov ltac:(discriminate))
    as (w' & outs & Hw' & Hwritten & _ & Hdistinct).
  exists w', outs. split; [exact Hw'|]. split; [exact Hwritten | exact Hdistinct].
Defined.

(** ** A program that cannot be started *)

(** X9.  When the external program cannot be started, the probe turns the
    [OSError] into its error artifact, while the splitter, the timecode
    overlay and the audio extractor let it out: they raise [OSError] after
    the one attempt, the handlers of the last two being for
    [CalledProcessError] alone. *)
Theorem not_started (h : host) (fuel : nat) (mov name : string)
    (s : segment) (rest : list segment) (output_name : option string)
    (w : world) :
  programs_missing h → mov ∈ files w →
  endswith (lower name) ".mp3" = false →
  (∃ (msg : string) (w' : world),
     get_video_info h mov w
     = Some (Returns (ErrorArtifact
         ("Error retrieving video duration: "
          +:+ str_of_exception h (OSError msg))), w')) ∧
  (∃ (msg : string) (w' : world),
     split_video h mov (s :: rest) output_name w
     = Some (Raises (OSError msg), w') ∧
     length (spawned w') = S (length (spawned w))) ∧
  (∃ (msg : string) (w' : world),
     add_timecode_overlay h mov output_name w
     = Some (Raises (OSError msg), w')) ∧
  (∃ (msg : string) (w' : world),
     extract_audio h (S fuel) mov (Some name) w
     = Some (Raises (OSError msg), w')).
Proof.
  intros Hmissing Hmov Hname. split_and!.
  - destruct (Hmissing (ffprobe_cmd mov) (files w)) as (msg & fs' & Hrun).
    exists msg. eexists. unfold get_video_info.
    rewrite (bind_returns _ _ _ _ _ (path_exists_true mov w Hmov)). simpl.
    unfold try_except. fold (ffprobe_cmd mov).
    by rewrite (bind_raises _ _ _ _ _
      (subprocess_run_not_started h false _ _ _ _ Hrun)).
  - unfold split_video.
    rewrite (bind_returns _ _ _ _ _ (path_exists_true mov w Hmov)).
    cbn [negb]. rewrite bool_decide_eq_false_2 by done.
    destruct (splitext mov) as [stem ext]. destruct (split stem) as [pth nam].
    match goal with
    | |- context [split_loop h mov pth nam ?out_name ext ?n 1 (s :: rest) []] =>
        assert (∃ (msg : string) (w' : world),
          split_loop h mov pth nam out_name ext n 1 (s :: rest) [] w
          = Some (Raises (OSError msg), w') ∧
          length (spawned w') = S (length (spawned w)))
          as (msg & w' & Hloop & Hlen)
    end.
    { cbn [split_loop].
      rewrite (bind_returns _ _ _ _ _ (delete_existing_spec _ w)).
      cbv beta.
      match goal with
      | |- context [(subprocess_run h false ?cmd ≫= _) ?w1] =>
          destruct (Hmissing cmd (files w1)) as (msg & fs' & Hrun);
          rewrite (bind_raises _ _ _ _ _
            (subprocess_run_not_started h false _ _ _ _ Hrun))
      end.
      eexists msg, _. split; [done|]. simpl. rewrite length_app. simpl.
      unfold after_delete. destruct (bool_decide _); simpl; lia. }
    exists msg, w'. split; [|done].
    by rewrite (bind_raises _ _ _ _ _ Hloop).
  - unfold add_timecode_overlay.
    rewrite (bind_returns _ _ _ _ _ (path_exists_true mov w Hmov)). simpl.
    destruct (splitext mov) as [stem ext]. destruct (split stem) as [pth nam].
    rewrite (bind_returns _ _ _ _ _ (delete_existing_spec _ w)).
      cbv beta.
    match goal with
    | |- context [try_except (subprocess_run h true ?cmd ≫= _) _ _ ?w1] =>
        destruct (Hmissing cmd (files w1)) as (msg & fs' & Hrun)
    end.
    eexists msg, _. unfold try_except.
    by rewrite (bind_raises _ _ _ _ _
      (subprocess_run_not_started h true _ _ _ _ Hrun)).
  - unfold extract_audio.
    rewrite (bind_returns _ _ _ _ _ (path_exists_true mov w Hmov)). simpl.
    destruct (splitext mov) as [stb ext]. destruct (split stb) as [pth nam].
    rewrite Hname. rewrite (bind_returns (mret name) _ w w name) by done.
    rewrite (bind_returns _ _ _ _ _ (delete_existing_spec _ w)).
      cbv beta.
    match goal with
    | |- context [try_except (subprocess_run h true ?cmd ≫= _) _ _ ?w1] =>
        destruct (Hmissing cmd (files w1)) as (msg & fs' & Hrun)
    end.
    eexists msg, _. unfold try_except.
    by rewrite (bind_raises _ _ _ _ _
      (subprocess_run_not_started h true _ _ _ _ Hrun)).
Qed.

Lemma not_started_witness :
  ∃ (msg : string) (w' : world),
    split_video no_programs "clip.mp4" [Segment 0%Qc 1%Qc] None
      (disk_with ["clip.mp4"])
    = Some (Raises (OSError msg), w').
Proof.
  assert (programs_missing no_programs) as Hmissing.
  { intros cmd fs. eexists _, fs. reflexivity. }
  assert ("clip.mp4" ∈ files (disk_with ["clip.mp4"])) as Hmov.
  { apply (bool_decide_eq_true_1 _). vm_compute. reflexivity. }
  destruct (not_started no_programs 0 "clip.mp4" "audio" (Segment 0%Qc 1%Qc)
    [] None (disk_with ["clip.mp4"]) Hmissing Hmov eq_refl)
    as (_ & (msg & w' & Hres & _) & _).
  exists msg, w'. exact Hres.
Defined.

(** ** The audio extractor and the timecode overlay, from request to answer *)

Section Checked.
Context (h : host).

(** A command started with [check=True] whose program exits, under the
    handler for [CalledProcessError]. *)
Lemma checked_run (cmd : list string) (success failure : string) (w : world)
    (rc : Z) (out : string) (fs' : gset string) :
  run_process h cmd (files w) = (Exited rc out, fs') →
  try_except
    (_ ← subprocess_run h true cmd; mret (TextArtifact success))
    is_CalledProcessError
    (λ e, mret (ErrorArtifact (failure +:+ str_of_exception h e))) w
  = Some (Returns (checked_answer h rc cmd success failure),
          after_run cmd fs' w).
Proof.
  intros Hrun. unfold try_except, checked_answer, mbind, prog_bind.
  rewrite (subprocess_run_exited h true _ _ _ _ _ Hrun). simpl.
  by destruct (rc =? 0)%Z.
Qed.

(** The audio extractor, step by step, from what the cleanup loop returns. *)
Lemma extract_audio_steps (fuel : nat) (mov : string)
    (output_name : option string) (name : string) (w w1 : world)
    (rc : Z) (o : string) (fs' : gset string) :
  mov ∈ files w →
  naming_cleanup fuel output_name w = Some (Returns name, w1) →
  let out := audio_out mov name in
  let cmd := audio_cmd mov out in
  run_process h cmd (files (after_delete out w1)) = (Exited rc o, fs') →
  extract_audio h fuel mov output_name w
  = Some (Returns (checked_answer h rc cmd
            ("Audio successfully extracted: " +:+ out)
            "Error extracting audio: "),
          after_run cmd fs' (after_delete out w1)).
Proof.
  intros Hmov Hclean out cmd Hrun. unfold extract_audio.
  rewrite (bind_returns _ _ _ _ _ (path_exists_true mov w Hmov)).
  cbn [negb]. unfold audio_out in out.
  destruct (splitext mov) as [stb ext]. cbn [fst snd] in out.
  destruct (split stb) as [pth nam]. cbn [fst snd] in out.
  rewrite (bind_returns _ _ _ _ _ Hclean). fold out.
  rewrite (bind_returns _ _ _ _ _ (delete_existing_spec out w1)).
  by eapply checked_run.
Qed.

Lemma naming_cleanup_kept (fuel : nat) (name : string) (w : world) :
  endswith (lower name) ".mp3" = false →
  naming_cleanup (S fuel) (Some name) w = Some (Returns name, w).
Proof. intros Hname. cbn [naming_cleanup]. by rewrite Hname. Qed.

(** The timecode overlay, step by step. *)
Lemma add_timecode_overlay_steps (mov : string)
    (output_name : option string) (w : world) (rc : Z) (o : string)
    (fs' : gset string) :
  mov ∈ files w →
  let out := overlay_out mov output_name in
  let cmd := overlay_cmd mov out in
  run_process h cmd (files (after_delete out w)) = (Exited rc o, fs') →
  add_timecode_overlay h mov output_name w
  = Some (Returns (checked_answer h rc cmd
            ("Timecode overlay added: " +:+ out)
            "Error adding timecode overlay: "),
          after_run cmd fs' (after_delete out w)).
Proof.
  intros Hmov out cmd Hrun. unfold add_timecode_overlay.
  rewrite (bind_returns _ _ _ _ _ (path_exists_true mov w Hmov)).
  cbn [negb]. unfold overlay_out in out.
  destruct (splitext mov) as [stem ext]. cbn [fst snd] in out.
  destruct (split stem) as [pth nam]. cbn [fst snd] in out. fold out.
  rewrite (bind_returns _ _ _ _ _ (delete_existing_spec out w)).
  by eapply checked_run.
Qed.

Lemma after_delete_present (out : string) (w : world) :
  out ∈ files w →
  after_delete out w
  = World (files w ∖ {[out]}) (spawned w)
      (printed w ++ ["Deleting existing " +:+ dquote +:+ out +:+ dquote]).
Proof. intros Hout. unfold after_delete. by rewrite bool_decide_eq_true_2. Qed.

End Checked.







(** ** The cleanup loop, for every name *)

Lemma substring_0_shorter (m : nat) (s : string) :
  String.substring 0 m s = s ∨
  String.length (String.substring 0 m s) < String.length s.
Proof.
  revert s. induction m as [|m IH]; intros [|a s]; simpl; auto with lia.
  destruct (IH s) as [->|Hlt]; [by left|right; lia].
Qed.

Lemma strip_ext_shorter (name : string) :
  strip_ext name = name ∨
  String.length (strip_ext name) < String.length name.
Proof.
  unfold strip_ext, splitext. destruct (_ && _); [|by left].
  apply substring_0_shorter.
Qed.

Lemma naming_cleanup_step (fuel : nat) (name : string) (w : world) :
  endswith (lower name) ".mp3" = true →
  naming_cleanup (S fuel) (Some name) w
  = naming_cleanup fuel (Some (strip_ext name))
      (World (files w) (spawned w)
         (printed w ++ ["Naming cleanup on: " +:+ name])).
Proof.
  intros Hsuffix. cbn [naming_cleanup]. rewrite Hsuffix.
  unfold strip_ext. by destruct (splitext name).
Qed.

Lemma naming_cleanup_more_fuel (fuel fuel' : nat) (out_name : option string)
    (w : world) (r : outcome string * world) :
  fuel ≤ fuel' →
  naming_cleanup fuel out_name w = Some r →
  naming_cleanup fuel' out_name w = Some r.
Proof.
  revert fuel' out_name w.
  induction fuel as [|fuel IH]; intros fuel' out_name w Hle; [done|].
  destruct fuel' as [|fuel']; [lia|].
  destruct out_name as [name|]; [|done].
  destruct (endswith (lower name) ".mp3") eqn:Hsuffix.
  - rewrite !naming_cleanup_step by done. apply IH. lia.
  - cbn [naming_cleanup]. by rewrite Hsuffix.
Qed.

(** X11.  The cleanup loop on any name either comes back within as many
    passes as the name has characters, and one more, or never comes back.
    When it comes back, the name it returns is the requested one after some
    number of passes of [splitext], it does not end with ".mp3" in any
    case of the letters, and no file was touched and no program started.
    When it does not, some number of passes of [splitext] has led to a
    name that ends with ".mp3" and off which [splitext] takes nothing. *)
Theorem cleanup_ends_or_sticks (name : string) (w : world) :
  (∃ (k : nat) (w' : world),
     naming_cleanup (S (String.length name)) (Some name) w
     = Some (Returns (Nat.iter k strip_ext name), w') ∧
     endswith (lower (Nat.iter k strip_ext name)) ".mp3" = false ∧
     files w' = files w ∧ spawned w' = spawned w) ∨
  (∃ k : nat,
     stuck (Nat.iter k strip_ext name) ∧
     ∀ fuel : nat, naming_cleanup fuel (Some name) w = None).
Proof.
  remember (String.length name) as n eqn:Hn.
  revert name w Hn. induction (lt_wf n) as [n _ IH]; intros name w ->.
  destruct (endswith (lower name) ".mp3") eqn:Hsuffix.
  - destruct (strip_ext_shorter name) as [Hkept|Hshorter].
    + right. exists 0. split; [done|].
      intros fuel. by apply naming_cleanup_stuck.
    + set (w1 := World (files w) (spawned w)
        (printed w ++ ["Naming cleanup on: " +:+ name])).
      destruct (IH _ Hshorter (strip_ext name) w1 eq_refl)
        as [(k & w' & Hret & Hclean & Hfiles & Hsp)|(k & Hstuck & Hnever)].
      * left. exists (S k), w'. rewrite Nat.iter_succ_r.
        split_and!; [|done..].
        rewrite naming_cleanup_step by done.
        eapply naming_cleanup_more_fuel; [|exact Hret]. lia.
      * right. exists (S k). rewrite Nat.iter_succ_r. split; [done|].
        intros [|fuel]; [done|]. rewrite naming_cleanup_step by done.
        apply Hnever.
  - left. exists 0, w. cbn [naming_cleanup Nat.iter]. by rewrite Hsuffix.
Qed.

(** ** From the plan to the clips *)

Section Pipeline.
Local Open Scope Qc_scope.

Lemma valid_plan_shape (duration : Qc) (method : string) (value : number) :
  0 < duration → valid_request method value →
  ∃ len : Qc,
    reaches duration len (segment_count duration method value) ∧
    ∀ fuel : nat, (segment_count duration method value < fuel)%nat →
      calculate_segments fuel duration method value
      = Some (Returns (InfoArtifact (Segments
          (plan_shape duration len (segment_count duration method value))))).
Proof.
  intros Hd [(-> & count & -> & Hcount)|(-> & Hlen)].
  - exists (duration / Qc_of_Z count). split.
    + by apply reaches_equal.
    + intros fuel _. apply calculate_equal; [by apply nonzero_of_pos | lia].
  - exists (num_val value). split.
    + by apply reaches_fixed.
    + intros fuel Hfuel. apply calculate_fixed_reaching; [done| |done].
      by apply reaches_fixed.
Qed.



End Pipeline.
